(** * SimpleHashTable: a shallow embedding of smpl::SimpleHashTable

    The table is the open-addressing container of [SimpleHashTable.h]
    (the MULTI-aware revision): a control byte and a (stored hash, index)
    pair per bucket, a dense array of entries, and for the multi variants
    a parallel array of keys.  Every member function that the properties
    below talk about is transcribed as a function on an explicit table
    state; [while] loops become fuel-bounded scans over the bucket arrays. *)

From Stdlib Require Import ZArith Lia String.
From stdpp Require Import base option list strings.

Local Open Scope Z_scope.

(** ** Machine integers *)

Definition wrap64 (x : Z) : Z := x mod 2 ^ 64.
Definition wrap8 (x : Z) : Z := x mod 2 ^ 8.

(** [UINT_MAX] of <climits> for a 32-bit [unsigned int]. *)
Definition UINT_MAX : Z := 4294967295.

(** The value [-1] stored in a [uint64_t] (the iterator's "no bucket"). *)
Definition NO_BUCKET : Z := 2 ^ 64 - 1.

(** ** Vectors indexed by [size_t] *)

Definition sizeZ {A} (l : list A) : Z := Z.of_nat (length l).
Definition nthZ {A} (l : list A) (i : Z) : option A := l !! Z.to_nat i.
Definition setZ {A} (l : list A) (i : Z) (x : A) : list A := <[Z.to_nat i := x]> l.

(** ** Binary floating point

    The load factor is computed in [float] (emplace) and in [double]
    (rebalance).  A finite non-negative value is kept as an exact fraction
    [(num, den)], not necessarily in lowest terms; [rne prec p q] is the
    quotient [p / q] rounded to [prec] significant bits, ties to even.  All quotients formed by the table lie
    between 2^-64 and 2^64, far inside the normal range of both formats, so
    neither overflow nor subnormals are modelled. *)

Definition frac : Type := (Z * Z)%type.

Definition rne (prec p q : Z) : frac :=
  if p =? 0 then (0, 1) else
  (* scale the numerator so that the quotient has more than prec bits *)
  let s := Z.log2 q + prec + 1 in
  let N := p * 2 ^ s in
  (* weight of the last kept bit, relative to the scaled numerator *)
  let e := Z.log2 (N / q) - (prec - 1) in
  let D := q * 2 ^ e in
  let m0 := N / D in
  let r := N mod D in
  let m := if 2 * r <? D then m0
           else if D <? 2 * r then m0 + 1
           else if Z.even m0 then m0 else m0 + 1 in
  (m * 2 ^ e, 2 ^ s).

Inductive fp : Type :=
| FNaN
| FInf
| FFin (v : frac).

(** Quotient of two finite non-negative values. *)
Definition fp_div (prec : Z) (x y : frac) : fp :=
  if fst y =? 0 then (if fst x =? 0 then FNaN else FInf)
  else FFin (rne prec (fst x * snd y) (snd x * fst y)).

Definition frac_ltb (x y : frac) : bool := fst x * snd y <? fst y * snd x.
Definition frac_leb (x y : frac) : bool := fst x * snd y <=? fst y * snd x.

(** [x < c], [x >= c] and [x > c] against a finite [c]; every comparison
    with a NaN is false. *)
Definition fp_lt (x : fp) (c : frac) : bool :=
  match x with FNaN => false | FInf => false | FFin v => frac_ltb v c end.
Definition fp_ge (x : fp) (c : frac) : bool :=
  match x with FNaN => false | FInf => true | FFin v => frac_leb c v end.
Definition fp_gt (x : fp) (c : frac) : bool :=
  match x with FNaN => false | FInf => true | FFin v => frac_ltb c v end.

Definition FLOAT_PREC : Z := 24.
Definition DOUBLE_PREC : Z := 53.

(** [(float)n] and [(double)n] for an unsigned integer [n]. *)
Definition to_float (n : Z) : frac := rne FLOAT_PREC n 1.
Definition to_double (n : Z) : frac := rne DOUBLE_PREC n 1.

(** [const float MaxLoadBalance = 0.80;] the literal is a [double] that is
    then narrowed to [float]. *)
Definition MaxLoadBalance : frac :=
  let d := rne DOUBLE_PREC 4 5 in rne FLOAT_PREC (fst d) (snd d).

(** [MaxLoadBalance/2], a [float] division by [2.0f]. *)
Definition HalfMaxLoadBalance : frac :=
  rne FLOAT_PREC (fst MaxLoadBalance) (snd MaxLoadBalance * 2).

(** The test of [emplace] and [try_emplace], on the element count [n] and
    the bucket count [B]:
    [(float)arr.size() / (float)fastHashInfo.size() > MaxLoadBalance]. *)
Definition load_exceeds (n B : Z) : bool :=
  fp_gt (fp_div FLOAT_PREC (to_float n) (to_float B)) MaxLoadBalance.

(** The bucket count [rebalance] picks, from the same two counts; the load
    is a [double] here and [B*2] is a [size_t] product. *)
Definition rebalance_newSize (n B : Z) : Z :=
  let load := fp_div DOUBLE_PREC (to_double n) (to_double B) in
  let newSize :=
    if fp_lt load HalfMaxLoadBalance then B / 2
    else if fp_ge load MaxLoadBalance then wrap64 (B * 2)
    else B in
  Z.max newSize 1024.

(** ** Template parameters *)

Class TableParams : Type := {
  Key : Type;
  KeyValueType : Type;
  (** [MULTI] and [BIG] of the class template. *)
  MULTI : bool;
  BIG : bool;
  (** [std::is_arithmetic_v<Key>]. *)
  key_is_arithmetic : bool;
  (** [HashFunc] and [KeyEqual]. *)
  hasher : Key -> Z;
  keyEqualFunc : Key -> Key -> bool;
  (** [getKey(const KeyValueType&)]: the entry itself for a set, [.first]
      for a map. *)
  getKey : KeyValueType -> Key;
  (** [rapid_mix] of rapidhash.h, which the header includes. *)
  rapid_mix : Z -> Z -> Z
}.

Section Table.
Context {P : TableParams}.

(** [RedirectType] is [uint64_t] when [BIG], [uint32_t] otherwise. *)
Definition RedirectBits : Z := if BIG then 64 else 32.
Definition toRedirect (x : Z) : Z := x mod 2 ^ RedirectBits.

Definition HashRedirectPair : Type := (Z * Z)%type.

(** [KVStorageType] is [std::list<KeyValueType>] for the multi variants and
    a bare [KeyValueType] for the single ones; the single variants are kept
    here as one-element lists. *)
Definition KVStorageType : Type := list KeyValueType.

Record SimpleHashTable : Type := mkTable {
  fastHashInfo : list Z;
  redirectInfo : list HashRedirectPair;
  arr : list KVStorageType;
  extraKeyStorage : list Key;
  totalElements : Z;
  rehashCounter : Z
}.

Record Iterator : Type := mkIt {
  all : bool;
  index : Z;
  (** Position inside [arr[index]] for the multi variants; [None] is a
      cursor that was never set. *)
  listIterator : option nat;
  itRehashCounter : Z;
  bucketIndex : Z
}.

(** What a member function does: return, throw, or leave the defined
    behaviour of the language (out-of-range subscript, division by zero, a
    loop that never stops). *)
Inductive outcome (A : Type) : Type :=
| Ret (a : A) (t : SimpleHashTable)
| Throw (what : string) (t : SimpleHashTable)
| Undefined.
Arguments Ret {A} a t.
Arguments Throw {A} what t.
Arguments Undefined {A}.

Definition VALID_BIT : Z := 128.

(** *** Constructors, clear *)

Definition empty_table : SimpleHashTable := mkTable [] [] [] [] 0 0.

Definition new_table (initSize : Z) : SimpleHashTable :=
  let initSize := if initSize <? 1024 then 1024 else initSize in
  mkTable (replicate (Z.to_nat initSize) 0) (replicate (Z.to_nat initSize) (0, 0))
          [] [] 0 0.

Definition clear (t : SimpleHashTable) : SimpleHashTable :=
  mkTable [] [] [] [] 0 (wrap64 (rehashCounter t + 1)).

Definition fastClear (t : SimpleHashTable) : SimpleHashTable :=
  mkTable (replicate (length (fastHashInfo t)) 0)
          (replicate (length (redirectInfo t)) (0, 0))
          [] [] 0 (wrap64 (rehashCounter t + 1)).

Definition getTotalBuckets (t : SimpleHashTable) : Z := sizeZ (fastHashInfo t).
Definition size (t : SimpleHashTable) : Z := totalElements t.

(** *** Small accessors *)

Definition getLocationEmpty (info : list Z) (loc : Z) : option bool :=
  c ← nthZ info loc; Some (c =? 0).

Definition getPartialHash (t : SimpleHashTable) (loc : Z) : option Z :=
  nthZ (fastHashInfo t) loc.

Definition getPartialHashEx (t : SimpleHashTable) (loc : Z) : option Z :=
  fst <$> nthZ (redirectInfo t) loc.

Definition extractPartialHashEx (hash : Z) : Z := toRedirect hash.

Definition getRedirectInfo (t : SimpleHashTable) (loc : Z) : option Z :=
  snd <$> nthZ (redirectInfo t) loc.

Definition getDistanceFromDesiredSpot (t : SimpleHashTable) (loc : Z) : option Z :=
  hash ← getPartialHashEx t loc;
  let desiredLocation := hash mod sizeZ (fastHashInfo t) in
  Some (toRedirect (if desiredLocation <=? loc
                    then loc - desiredLocation
                    else loc + sizeZ (fastHashInfo t) - desiredLocation)).

Definition extractPartialHash (hash : Z) : Z :=
  wrap8 (Z.lor (rapid_mix hash 11376068507788127593) VALID_BIT).

Definition comparePartialHashEx (t : SimpleHashTable) (loc h : Z) : option bool :=
  if key_is_arithmetic then Some true
  else (stored ← getPartialHashEx t loc; Some (stored =? h)).

(** [checkIfOverflowPossible] throws exactly when this is [true]. *)
Definition checkIfOverflowPossible (t : SimpleHashTable) : bool :=
  if BIG then false else sizeZ (arr t) =? UINT_MAX - 1.

(** [getKey(const std::list<KeyValueType>&)] reads [v.back()]. *)
Definition getKeyStorage (l : KVStorageType) : option Key :=
  getKey <$> last l.

Definition elementsAtLocation (t : SimpleHashTable) (arrIndex : Z) : option Z :=
  if MULTI then sizeZ <$> nthZ (arr t) arrIndex else Some 1.

(** *** Iterators *)

(** The three-argument constructors.  The single one reads nothing.  The
    multi one tests [index < ptr->size()], the element count, and then reads
    [ptr->arr[index].begin()]: where [index] is not an index of [arr] that
    read is out of range and the construction is undefined, [None]. *)
Definition newIterator (t : SimpleHashTable) (idx : Z) (a : bool) : option Iterator :=
  if MULTI then
    if idx <? size t then
      match nthZ (arr t) idx with
      | Some _ => Some (mkIt a idx (Some 0%nat) (rehashCounter t) NO_BUCKET)
      | None => None
      end
    else Some (mkIt a idx None (rehashCounter t) NO_BUCKET)
  else Some (mkIt a idx None (rehashCounter t) NO_BUCKET).

Definition withBucket (it : Iterator) (b : Z) : Iterator :=
  mkIt (all it) (index it) (listIterator it) (itRehashCounter it) b.

Definition withAll (it : Iterator) (a : bool) : Iterator :=
  mkIt a (index it) (listIterator it) (itRehashCounter it) (bucketIndex it).

Definition cursor_eqb (a b : option nat) : bool :=
  match a, b with
  | Some x, Some y => Nat.eqb x y
  | None, None => true
  | _, _ => false
  end.

Definition it_eqb (a b : Iterator) : bool :=
  if MULTI
  then (index a =? index b) && cursor_eqb (listIterator a) (listIterator b)
  else index a =? index b.

Definition begin_ (t : SimpleHashTable) : option Iterator := newIterator t 0 true.
Definition end_ (t : SimpleHashTable) : option Iterator :=
  newIterator t (sizeZ (arr t)) true.

(** [return it;] for an iterator whose construction may be undefined. *)
Definition returnIt (o : option Iterator) (t : SimpleHashTable) : outcome Iterator :=
  match o with
  | Some it => Ret it t
  | None => Undefined
  end.

(** [it->first]: the key of the entry the iterator designates. *)
Definition it_key (t : SimpleHashTable) (it : Iterator) : option Key :=
  l ← nthZ (arr t) (index it);
  if MULTI
  then (pos ← listIterator it; getKey <$> l !! pos)
  else getKey <$> head l.

(** *** Probing *)

Definition checkForDuplicate (t : SimpleHashTable)
    (intendedLocation partialHash extraHash : Z) (key : Key) : option bool :=
  stored ← getPartialHash t intendedLocation;
  if stored =? partialHash then
    same ← comparePartialHashEx t intendedLocation extraHash;
    if same : bool then
      i ← getRedirectInfo t intendedLocation;
      if MULTI
      then (k ← nthZ (extraKeyStorage t) i; Some (keyEqualFunc k key))
      else (l ← nthZ (arr t) i; k ← getKeyStorage l; Some (keyEqualFunc k key))
    else Some false
  else Some false.

(** The probe loop shared by [emplace], [try_emplace] and [search]: walk
    from [loc] until an empty bucket ([inl]) or a duplicate ([inr]) is met.
    One revolution is enough, the loop does not change the table. *)
Fixpoint probe (fuel : nat) (t : SimpleHashTable)
    (partialHash extraHash : Z) (key : Key) (loc : Z) : option (Z + Z) :=
  match fuel with
  | O => None
  | S fuel' =>
      e ← getLocationEmpty (fastHashInfo t) loc;
      if e : bool then Some (inl loc)
      else
        d ← checkForDuplicate t loc partialHash extraHash key;
        if d : bool then Some (inr loc)
        else probe fuel' t partialHash extraHash key
                   ((loc + 1) mod sizeZ (fastHashInfo t))
  end.

(** *** search / find *)

Definition search (t : SimpleHashTable) (k : Key) : outcome Iterator :=
  if sizeZ (arr t) =? 0 then returnIt (end_ t) t
  else if sizeZ (fastHashInfo t) =? 0 then Undefined
  else
    let actualHash := wrap64 (hasher k) in
    let partialHash := extractPartialHash actualHash in
    let extraHash := extractPartialHashEx actualHash in
    let location := actualHash mod sizeZ (fastHashInfo t) in
    match probe (length (fastHashInfo t)) t partialHash extraHash k location with
    | None => Undefined
    | Some (inl _) => returnIt (end_ t) t
    | Some (inr loc) =>
        match getRedirectInfo t loc with
        | None => Undefined
        | Some i => returnIt (it ← newIterator t i false; Some (withBucket it loc)) t
        end
    end.

Definition find := search.

(** *** rebalance *)

(** The inner loop of [specialInsert] on the fresh control array. *)
Fixpoint first_empty (fuel : nat) (info : list Z) (loc : Z) : option Z :=
  match fuel with
  | O => None
  | S fuel' =>
      e ← getLocationEmpty info loc;
      if e : bool then Some loc
      else first_empty fuel' info ((loc + 1) mod sizeZ info)
  end.

Definition specialInsert (t : SimpleHashTable) (nodeLocation : Z)
    (fresh : list Z * list HashRedirectPair) : option (list Z * list HashRedirectPair) :=
  let '(newHashInfo, newRedirectInfo) := fresh in
  storedHash ← getPartialHashEx t nodeLocation;
  let hashLocation := storedHash mod sizeZ newHashInfo in
  loc ← first_empty (length newHashInfo) newHashInfo hashLocation;
  c ← nthZ (fastHashInfo t) nodeLocation;
  r ← nthZ (redirectInfo t) nodeLocation;
  Some (setZ newHashInfo loc c, setZ newRedirectInfo loc r).

(** [for(size_t i=0; i<fastHashInfo.size(); i++)] over the old arrays. *)
Fixpoint rebalance_loop (t : SimpleHashTable) (todo : list Z)
    (fresh : list Z * list HashRedirectPair) : option (list Z * list HashRedirectPair) :=
  match todo with
  | [] => Some fresh
  | i :: todo' =>
      e ← getLocationEmpty (fastHashInfo t) i;
      fresh' ← (if e : bool then Some fresh else specialInsert t i fresh);
      rebalance_loop t todo' fresh'
  end.

Definition rebalance (t : SimpleHashTable) : option SimpleHashTable :=
  let newSize := rebalance_newSize (sizeZ (arr t)) (sizeZ (fastHashInfo t)) in
  let fresh := (replicate (Z.to_nat newSize) 0, replicate (Z.to_nat newSize) (0, 0)) in
  fresh' ← rebalance_loop t (Z.of_nat <$> seq 0 (length (fastHashInfo t))) fresh;
  Some (mkTable (fst fresh') (snd fresh') (arr t) (extraKeyStorage t)
                (totalElements t) (wrap64 (rehashCounter t + 1))).

Definition forceRehash (t : SimpleHashTable) : outcome unit :=
  match rebalance t with
  | Some t' => Ret tt t'
  | None => Undefined
  end.

(** *** emplace / insert *)

Definition attemptToAdd (t : SimpleHashTable) (v : KeyValueType) : SimpleHashTable :=
  mkTable (fastHashInfo t) (redirectInfo t) (arr t ++ [[v]])
          (if MULTI then extraKeyStorage t ++ [getKey v] else extraKeyStorage t)
          (totalElements t) (rehashCounter t).

Definition appendMultimap (t : SimpleHashTable) (intendedLocation : Z)
    (v : KeyValueType) : outcome Iterator :=
  match getRedirectInfo t intendedLocation with
  | None => Undefined
  | Some actualLocation =>
      if MULTI then
        match nthZ (arr t) actualLocation with
        | None => Undefined
        | Some l =>
            let t' := mkTable (fastHashInfo t) (redirectInfo t)
                              (setZ (arr t) actualLocation (l ++ [v]))
                              (extraKeyStorage t)
                              (wrap64 (totalElements t + 1)) (rehashCounter t) in
            Ret (mkIt false actualLocation (Some (length l)) (rehashCounter t')
                      intendedLocation) t'
        end
      else returnIt (it ← newIterator t actualLocation false;
                     Some (withBucket it intendedLocation)) t
  end.

Definition overMaxLoad (t : SimpleHashTable) : bool :=
  load_exceeds (sizeZ (arr t)) (sizeZ (fastHashInfo t)).

(** The opening statement of [emplace] and [try_emplace]: give the table its
    first 1024 buckets. *)
Definition allocateIfEmpty (t : SimpleHashTable) : SimpleHashTable :=
  if sizeZ (fastHashInfo t) =? 0
  then mkTable (replicate 1024 0) (replicate 1024 (0, 0)) (arr t)
               (extraKeyStorage t) (totalElements t) (rehashCounter t)
  else t.

Definition emplace (t0 : SimpleHashTable) (v : KeyValueType) : outcome Iterator :=
  let t := allocateIfEmpty t0 in
  if checkIfOverflowPossible t then Throw "TOO LARGE" t
  else
    let key := getKey v in
    let actualHash := wrap64 (hasher key) in
    let partialHash := extractPartialHash actualHash in
    let extraHash := extractPartialHashEx actualHash in
    let intendedLocation := actualHash mod sizeZ (fastHashInfo t) in
    match probe (length (fastHashInfo t)) t partialHash extraHash key intendedLocation with
    | None => Undefined
    | Some (inr loc) => appendMultimap t loc v
    | Some (inl loc) =>
        let t1 := attemptToAdd t v in
        let t2 := mkTable (setZ (fastHashInfo t1) loc partialHash)
                          (setZ (redirectInfo t1) loc
                                (toRedirect actualHash, toRedirect (sizeZ (arr t1) - 1)))
                          (arr t1) (extraKeyStorage t1) (totalElements t1)
                          (rehashCounter t1) in
        match newIterator t2 (sizeZ (arr t2) - 1) false with
        | None => Undefined
        | Some it =>
            let returnIt := withBucket it loc in
            match (if overMaxLoad t2 then rebalance t2 else Some t2) with
            | None => Undefined
            | Some t3 =>
                Ret returnIt
                    (mkTable (fastHashInfo t3) (redirectInfo t3) (arr t3)
                             (extraKeyStorage t3) (wrap64 (totalElements t3 + 1))
                             (rehashCounter t3))
            end
        end
    end.

Definition insert := emplace.

(** *** remove / erase *)

(** [std::swap(v.back(), v[index]); v.pop_back();] *)
Definition swapAndDelete {A} (v : list A) (idx : Z) : option (list A) :=
  lastv ← last v;
  _ ← nthZ v idx;
  Some (take (length v - 1)%nat (setZ v idx lastv)).

Definition removeFromList (t : SimpleHashTable) (it : Iterator) : outcome Iterator :=
  if MULTI then
    match nthZ (arr t) (index it), listIterator it with
    | Some l, Some pos =>
        if (pos <? length l)%nat then
          let l' := delete pos l in
          let t' := mkTable (fastHashInfo t) (redirectInfo t)
                            (setZ (arr t) (index it) l') (extraKeyStorage t)
                            (totalElements t) (rehashCounter t) in
          if (pos =? length l')%nat then returnIt (end_ t') t'
          else Ret (mkIt (all it) (index it) (Some pos) (rehashCounter t')
                         (bucketIndex it)) t'
        else Undefined
    | _, _ => Undefined
    end
  else returnIt (end_ t) t.

(** The [while(true)] scan for the bucket that points at [arr.back()]. *)
Fixpoint find_last_spot (fuel : nat) (t : SimpleHashTable)
    (lastSpotPartialHash lastSpotExtraHash lastSpotLocation : Z) : option Z :=
  match fuel with
  | O => None
  | S fuel' =>
      c ← getPartialHash t lastSpotLocation;
      hit ← (if c =? lastSpotPartialHash then
               same ← comparePartialHashEx t lastSpotLocation lastSpotExtraHash;
               if same : bool then
                 i ← getRedirectInfo t lastSpotLocation;
                 Some (i =? sizeZ (arr t) - 1)
               else Some false
             else Some false);
      if hit : bool then Some lastSpotLocation
      else find_last_spot fuel' t lastSpotPartialHash lastSpotExtraHash
             ((lastSpotLocation + 1) mod sizeZ (fastHashInfo t))
  end.

(** The backward-shift loop that closes [remove]. *)
Fixpoint shift_back (fuel : nat) (t : SimpleHashTable)
    (previousLocation bucketLocation : Z) : option SimpleHashTable :=
  match fuel with
  | O => None
  | S fuel' =>
      e ← getLocationEmpty (fastHashInfo t) bucketLocation;
      if e : bool then Some t
      else
        d ← getDistanceFromDesiredSpot t bucketLocation;
        if 0 <? d then
          c ← nthZ (fastHashInfo t) bucketLocation;
          r ← nthZ (redirectInfo t) bucketLocation;
          shift_back fuel'
            (mkTable (setZ (fastHashInfo t) previousLocation c)
                     (setZ (redirectInfo t) previousLocation r)
                     (arr t) (extraKeyStorage t) (totalElements t) (rehashCounter t))
            bucketLocation ((bucketLocation + 1) mod sizeZ (fastHashInfo t))
        else Some t
  end.

(** The slow path of [remove], entered with a bucket index that is taken
    to be valid. *)
Definition remove_bucket (t : SimpleHashTable) (it newIT : Iterator)
    (elementCounter : Z) : outcome Iterator :=
  let bucketLocation := bucketIndex newIT in
  let done :=
    _ ← getPartialHash t bucketLocation;
    _ ← getPartialHashEx t bucketLocation;
    back ← last (arr t);
    lastKey ← getKeyStorage back;
    let lastSpotHash := wrap64 (hasher lastKey) in
    let lastSpotPartialHash := extractPartialHash lastSpotHash in
    let lastSpotExtraHash := extractPartialHashEx lastSpotHash in
    lastSpotLocation ← find_last_spot (length (fastHashInfo t)) t
                         lastSpotPartialHash lastSpotExtraHash
                         (lastSpotHash mod sizeZ (fastHashInfo t));
    let info1 := setZ (fastHashInfo t) bucketLocation 0 in
    arr1 ← swapAndDelete (arr t) (index it);
    keys1 ← (if MULTI then swapAndDelete (extraKeyStorage t) (index it)
             else Some (extraKeyStorage t));
    from ← nthZ (redirectInfo t) bucketLocation;
    to ← nthZ (redirectInfo t) lastSpotLocation;
    let redir1 := setZ (redirectInfo t) lastSpotLocation (fst to, snd from) in
    let t1 := mkTable info1 redir1 arr1 keys1 (totalElements t) (rehashCounter t) in
    t2 ← shift_back (length info1) t1 bucketLocation
                    ((bucketLocation + 1) mod sizeZ info1);
    Some (mkTable (fastHashInfo t2) (redirectInfo t2) (arr t2) (extraKeyStorage t2)
                  (wrap64 (totalElements t2 - elementCounter)) (rehashCounter t2)) in
  match done with
  | None => Undefined
  | Some t' =>
      if all newIT then returnIt (newIterator t' (index newIT) true) t'
      else returnIt (end_ t') t'
  end.

Definition remove (t : SimpleHashTable) (it : Iterator) (deleteAll : bool)
    : outcome Iterator :=
  if sizeZ (arr t) =? 0 then returnIt (end_ t) t
  else
    match end_ t with
    | None => Undefined
    | Some e =>
        if it_eqb it e then Ret e t
        else
          match elementsAtLocation t (index it) with
          | None => Undefined
          | Some elementCounter =>
              if negb deleteAll && (1 <? elementCounter) then
                removeFromList
                  (mkTable (fastHashInfo t) (redirectInfo t) (arr t)
                           (extraKeyStorage t) (wrap64 (totalElements t - 1))
                           (rehashCounter t)) it
              else if negb (itRehashCounter it =? rehashCounter t)
                      || (bucketIndex it =? NO_BUCKET) then
                match it_key t it with
                | None => Undefined
                | Some k =>
                    match find t k with
                    | Ret found _ =>
                        let newIT := withAll found (all it) in
                        if it_eqb newIT e then Ret e t
                        else remove_bucket t it newIT elementCounter
                    | _ => Undefined
                    end
                end
              else if it_eqb it e then Ret e t
              else remove_bucket t it it elementCounter
          end
    end.

(** [erase(const Key&)], [erase(const Iterator&)], [eraseAll]. *)
Definition erase (t : SimpleHashTable) (k : Key) : outcome Iterator :=
  match find t k with
  | Ret it t' => remove t' it true
  | Throw w t' => Throw w t'
  | Undefined => Undefined
  end.

Definition erase_it (t : SimpleHashTable) (it : Iterator) : outcome Iterator :=
  remove t it false.

Definition eraseAll (t : SimpleHashTable) (it : Iterator) : outcome Iterator :=
  remove t it true.

(** ** Reachable tables *)

Definition state_of {A} (o : outcome A) : option SimpleHashTable :=
  match o with
  | Ret _ t => Some t
  | Throw _ t => Some t
  | Undefined => None
  end.

(** The tables a client can hold: built by a constructor and changed by
    the public member functions. *)
Inductive reachable : SimpleHashTable -> Prop :=
| reach_default : reachable empty_table
| reach_hint n : 0 <= n -> reachable (new_table n)
| reach_emplace t v t' :
    reachable t -> state_of (emplace t v) = Some t' -> reachable t'
| reach_erase t k t' :
    reachable t -> state_of (erase t k) = Some t' -> reachable t'
| reach_erase_it t it all t' :
    reachable t -> state_of (remove t it all) = Some t' -> reachable t'
| reach_forceRehash t t' :
    reachable t -> state_of (forceRehash t) = Some t' -> reachable t'
| reach_clear t : reachable t -> reachable (clear t)
| reach_fastClear t : reachable t -> reachable (fastClear t).

(** A script of calls, run from left to right; [None] as soon as a call
    throws or is undefined. *)
Inductive call : Type :=
| Insert (v : KeyValueType)
| Erase (k : Key)
| ForceRehash
| Clear
| FastClear.

Definition step (t : SimpleHashTable) (c : call) : option SimpleHashTable :=
  match c with
  | Insert v => match emplace t v with Ret _ t' => Some t' | _ => None end
  | Erase k => match erase t k with Ret _ t' => Some t' | _ => None end
  | ForceRehash => match forceRehash t with Ret _ t' => Some t' | _ => None end
  | Clear => Some (clear t)
  | FastClear => Some (fastClear t)
  end.

Fixpoint run (t : SimpleHashTable) (cs : list call) : option SimpleHashTable :=
  match cs with
  | [] => Some t
  | c :: cs' => t' ← step t c; run t' cs'
  end.

End Table.

Arguments Ret {P A} a t.
Arguments Throw {P A} what t.
Arguments Undefined {P A}.

(** ** Instances used in the examples *)

(** Modelled from the spec: [rapid_mix] is defined in rapidhash.h, which is
    not among the sources; the spec calls it a multiplicative mix of the
    hash with a fixed 64-bit constant.  This is rapidhash's definition: the
    two halves of the 128-bit product, xor-ed. *)
Definition rapidhash_mix (a b : Z) : Z :=
  Z.lxor ((a * b) mod 2 ^ 64) ((a * b) / 2 ^ 64).

(** [SimpleHashTable<uint64_t, std::string, MULTI, IdHash, std::equal_to<>, BIG>]
    with a hash functor that returns its argument. *)
Definition u64_map (multi big : bool) : TableParams := {|
  Key := Z;
  KeyValueType := Z * string;
  MULTI := multi;
  BIG := big;
  key_is_arithmetic := true;
  hasher := fun k => k;
  keyEqualFunc := Z.eqb;
  getKey := fst;
  rapid_mix := rapidhash_mix
|}.

(** * Properties *)

(** ** Vectors *)

Lemma sizeZ_nonneg {A} (l : list A) : 0 <= sizeZ l.
Proof. unfold sizeZ. lia. Qed.

Lemma sizeZ_setZ {A} (l : list A) i x : sizeZ (setZ l i x) = sizeZ l.
Proof. unfold sizeZ, setZ. by rewrite length_insert. Qed.

Lemma length_setZ {A} (l : list A) i x : length (setZ l i x) = length l.
Proof. unfold setZ. by rewrite length_insert. Qed.

Lemma sizeZ_app {A} (l1 l2 : list A) : sizeZ (l1 ++ l2) = sizeZ l1 + sizeZ l2.
Proof. unfold sizeZ. rewrite length_app. lia. Qed.

Lemma sizeZ_replicate {A} n (x : A) : sizeZ (replicate n x) = Z.of_nat n.
Proof. unfold sizeZ. by rewrite length_replicate. Qed.

Lemma sizeZ_zero_nil {A} (l : list A) : sizeZ l = 0 -> l = [].
Proof. destruct l; [done|]. unfold sizeZ; simpl; lia. Qed.

Lemma nthZ_lt {A} (l : list A) i x : 0 <= i -> nthZ l i = Some x -> i < sizeZ l.
Proof.
  unfold nthZ, sizeZ. intros Hi H. apply lookup_lt_Some in H. lia.
Qed.

Lemma nthZ_is_Some {A} (l : list A) i : 0 <= i < sizeZ l -> is_Some (nthZ l i).
Proof.
  unfold nthZ, sizeZ. intros Hi. apply lookup_lt_is_Some. lia.
Qed.

Lemma nthZ_setZ_eq {A} (l : list A) i x :
  0 <= i < sizeZ l -> nthZ (setZ l i x) i = Some x.
Proof.
  unfold nthZ, setZ, sizeZ. intros Hi. apply list_lookup_insert_eq. lia.
Qed.

Lemma nthZ_setZ_ne {A} (l : list A) i j x :
  0 <= i -> 0 <= j -> i <> j -> nthZ (setZ l i x) j = nthZ l j.
Proof.
  unfold nthZ, setZ. intros Hi Hj Hne. apply list_lookup_insert_ne. lia.
Qed.

Lemma nthZ_app_l {A} (l1 l2 : list A) i x :
  nthZ l1 i = Some x -> nthZ (l1 ++ l2) i = Some x.
Proof. unfold nthZ. intros H. by apply lookup_app_l_Some. Qed.


(** Peel the binds of an equation [m ≫= f = Some y] in the option monad. *)
Ltac inv_bind H :=
  repeat (apply bind_Some in H; destruct H as (? & ? & H)).

(** ** Bucket counts through the operations *)

Section BucketCounts.
Context {P : TableParams}.

Lemma returnIt_Ret o t it t' : returnIt o t = Ret it t' -> o = Some it /\ t' = t.
Proof. destruct o; simpl; intros H; by simplify_eq. Qed.

Lemma returnIt_no_throw o t w t' : returnIt o t <> Throw w t'.
Proof. by destruct o. Qed.

Lemma returnIt_state o t t' : state_of (returnIt o t) = Some t' -> t' = t.
Proof. destruct o; simpl; intros H; by simplify_eq. Qed.

Lemma rebalance_newSize_floor n B : 1024 <= rebalance_newSize n B.
Proof. unfold rebalance_newSize. lia. Qed.

Lemma specialInsert_length t i fresh fresh' :
  specialInsert t i fresh = Some fresh' ->
  length (fst fresh') = length (fst fresh) /\ length (snd fresh') = length (snd fresh).
Proof.
  destruct fresh as [h r]. unfold specialInsert. intros H.
  inv_bind H. simplify_eq. simpl. by rewrite !length_setZ.
Qed.

Lemma rebalance_loop_length t todo : forall fresh fresh',
  rebalance_loop t todo fresh = Some fresh' ->
  length (fst fresh') = length (fst fresh) /\ length (snd fresh') = length (snd fresh).
Proof.
  induction todo as [|i todo IH]; intros fresh fresh' H; simpl in H.
  - by simplify_eq.
  - destruct (getLocationEmpty (fastHashInfo t) i) as [e|]; [|done]. simpl in H.
    destruct e; simpl in H.
    + by apply IH.
    + destruct (specialInsert t i fresh) as [f1|] eqn:E; [|done]. simpl in H.
      apply IH in H. apply specialInsert_length in E. destruct H, E. split; congruence.
Qed.

(** What [rebalance] leaves alone, and the bucket count it installs. *)
Lemma rebalance_frame t t' :
  rebalance t = Some t' ->
  sizeZ (fastHashInfo t') = rebalance_newSize (sizeZ (arr t)) (sizeZ (fastHashInfo t)) /\
  length (redirectInfo t') = length (fastHashInfo t') /\
  arr t' = arr t /\ extraKeyStorage t' = extraKeyStorage t /\
  totalElements t' = totalElements t /\
  rehashCounter t' = wrap64 (rehashCounter t + 1).
Proof.
  unfold rebalance. intros H.
  destruct (rebalance_loop _ _ _) as [fresh'|] eqn:E; [|done]. simpl in H.
  apply rebalance_loop_length in E. simpl in E. rewrite !length_replicate in E.
  destruct E as [E1 E2]. simplify_eq. simpl. repeat split; try done.
  - unfold sizeZ at 1. rewrite E1.
    pose proof (rebalance_newSize_floor (sizeZ (arr t)) (sizeZ (fastHashInfo t))). lia.
  - congruence.
Qed.

Lemma shift_back_frame fuel : forall t prev cur t',
  shift_back fuel t prev cur = Some t' ->
  length (fastHashInfo t') = length (fastHashInfo t) /\
  length (redirectInfo t') = length (redirectInfo t) /\
  arr t' = arr t /\ extraKeyStorage t' = extraKeyStorage t /\
  totalElements t' = totalElements t /\ rehashCounter t' = rehashCounter t.
Proof.
  induction fuel as [|fuel IH]; intros t prev cur t' H; simpl in H; [done|].
  destruct (getLocationEmpty _ _) as [[]|]; simpl in H; simplify_eq; [done|].
  destruct (getDistanceFromDesiredSpot _ _) as [d|]; simpl in H; [|done].
  destruct (0 <? d); simplify_eq; [|done].
  destruct (nthZ (fastHashInfo t) cur) as [c|]; simpl in H; [|done].
  destruct (nthZ (redirectInfo t) cur) as [r|]; simpl in H; [|done].
  apply IH in H. simpl in H. rewrite !length_setZ in H. done.
Qed.

Lemma swapAndDelete_length {A} (v v' : list A) idx :
  swapAndDelete v idx = Some v' -> sizeZ v' = sizeZ v - 1.
Proof.
  unfold swapAndDelete. intros H. inv_bind H. simplify_eq.
  unfold sizeZ. rewrite length_take, length_setZ.
  destruct v; [done|]. simpl. lia.
Qed.

Lemma remove_bucket_frame t it newIT n it' t' :
  remove_bucket t it newIT n = Ret it' t' ->
  length (fastHashInfo t') = length (fastHashInfo t) /\
  length (redirectInfo t') = length (redirectInfo t) /\
  sizeZ (arr t') = sizeZ (arr t) - 1 /\
  totalElements t' = wrap64 (totalElements t - n) /\
  rehashCounter t' = rehashCounter t.
Proof.
  unfold remove_bucket. intros H.
  match type of H with match ?d with _ => _ end = _ => destruct d as [t1|] eqn:E end;
    [|done].
  assert (t1 = t') as ->
    by (destruct (all newIT); apply returnIt_Ret in H; by destruct H).
  clear H. inv_bind E. simplify_eq. simpl.
  match goal with Hs : shift_back _ _ _ _ = Some _ |- _ =>
    apply shift_back_frame in Hs; simpl in Hs;
    destruct Hs as (Ea & Eb & Ec & Ed & Ee & Ef) end.
  rewrite !length_setZ in *. rewrite Ec, Ee. repeat split; try done.
  by eapply swapAndDelete_length.
Qed.

Lemma removeFromList_frame t it it' t' :
  removeFromList t it = Ret it' t' ->
  fastHashInfo t' = fastHashInfo t /\ redirectInfo t' = redirectInfo t /\
  sizeZ (arr t') = sizeZ (arr t) /\ rehashCounter t' = rehashCounter t.
Proof.
  unfold removeFromList. intros H.
  destruct MULTI; [|apply returnIt_Ret in H as [_ ->]; done].
  destruct (nthZ (arr t) (index it)) as [l|]; [|done].
  destruct (listIterator it) as [pos|]; [|done].
  destruct (pos <? length l)%nat; [|done].
  destruct (pos =? _)%nat; [apply returnIt_Ret in H as [_ ->]|simplify_eq];
    simpl; by rewrite sizeZ_setZ.
Qed.

(** [remove] never changes the number of buckets, and does nothing at all
    on a table without entries. *)
Lemma remove_frame t it deleteAll t' :
  state_of (remove t it deleteAll) = Some t' ->
  length (fastHashInfo t') = length (fastHashInfo t) /\
  sizeZ (arr t') <= sizeZ (arr t) /\
  (sizeZ (arr t) = 0 -> t' = t).
Proof.
  unfold remove. intros H.
  destruct (sizeZ (arr t) =? 0) eqn:E0; [by apply returnIt_state in H as ->|].
  apply Z.eqb_neq in E0.
  assert (forall o : outcome Iterator,
    state_of o = Some t' ->
    (forall i x, o = Ret i x ->
       length (fastHashInfo x) = length (fastHashInfo t) /\ sizeZ (arr x) <= sizeZ (arr t)) ->
    (forall w x, o <> Throw w x) ->
    length (fastHashInfo t') = length (fastHashInfo t) /\
    sizeZ (arr t') <= sizeZ (arr t) /\ (sizeZ (arr t) = 0 -> t' = t)) as Hgen.
  { intros [i x|w x|] Ho Hr Ht; simpl in Ho; simplify_eq.
    - destruct (Hr i t' eq_refl). repeat split; [done..|lia].
    - by destruct (Ht w t'). }
  assert (forall i n, forall o : outcome Iterator,
    o = remove_bucket t it i n ->
    (forall j x, o = Ret j x ->
       length (fastHashInfo x) = length (fastHashInfo t) /\ sizeZ (arr x) <= sizeZ (arr t)) /\
    (forall w x, o <> Throw w x)) as Hrb.
  { intros i n o ->. split.
    - intros j x Hx. apply remove_bucket_frame in Hx. destruct Hx as (?&?&?&?&?).
      split; [done|lia].
    - intros w x. unfold remove_bucket.
      match goal with |- match ?d with _ => _ end <> _ => destruct d end; [|done].
      destruct (all i); apply returnIt_no_throw. }
  destruct (end_ t) as [e|]; [|done].
  destruct (it_eqb it e); [by simplify_eq/=|].
  destruct (elementsAtLocation t (index it)) as [n|]; [|done].
  destruct (negb deleteAll && (1 <? n)).
  { eapply Hgen; [exact H| |].
    - intros i x Hx. apply removeFromList_frame in Hx. simpl in Hx.
      destruct Hx as (-> & _ & Hx & _). split; [done|lia].
    - intros w x. unfold removeFromList.
      repeat case_match; done || apply returnIt_no_throw. }
  destruct (negb _ || _).
  - destruct (it_key t it) as [k|]; [|done].
    destruct (find t k) as [found tf| |] eqn:Ef; try done.
    destruct (it_eqb _ _); [by simplify_eq/=|].
    destruct (Hrb (withAll found (all it)) n _ eq_refl). by eapply Hgen.
  - destruct (Hrb it n _ eq_refl). by eapply Hgen.
Qed.

Lemma search_state t k it t' : search t k = Ret it t' -> t' = t.
Proof.
  unfold search. intros H.
  repeat case_match; done || (apply returnIt_Ret in H; by destruct H).
Qed.

Lemma search_no_throw t k w t' : search t k <> Throw w t'.
Proof. unfold search. repeat case_match; done || apply returnIt_no_throw. Qed.

Lemma erase_frame t k t' :
  state_of (erase t k) = Some t' ->
  length (fastHashInfo t') = length (fastHashInfo t) /\
  sizeZ (arr t') <= sizeZ (arr t) /\
  (sizeZ (arr t) = 0 -> t' = t).
Proof.
  unfold erase, find. intros H.
  destruct (search t k) as [it t1|w t1|] eqn:E; [| |done].
  - apply search_state in E as ->. by eapply remove_frame.
  - by apply search_no_throw in E.
Qed.

Lemma allocateIfEmpty_buckets t :
  (sizeZ (fastHashInfo t) = 0 /\ sizeZ (fastHashInfo (allocateIfEmpty t)) = 1024) \/
  (sizeZ (fastHashInfo t) <> 0 /\ allocateIfEmpty t = t).
Proof.
  unfold allocateIfEmpty. destruct (sizeZ (fastHashInfo t) =? 0) eqn:E.
  - left. apply Z.eqb_eq in E. split; [done|]. cbn [fastHashInfo].
    by rewrite sizeZ_replicate.
  - right. by apply Z.eqb_neq in E.
Qed.

Lemma allocateIfEmpty_arr t : arr (allocateIfEmpty t) = arr t.
Proof. unfold allocateIfEmpty. by destruct (_ =? _). Qed.

(** After [emplace], whatever its outcome, the table has buckets: those it
    had, the first 1024, or the count chosen by [rebalance]. *)
Lemma emplace_buckets t v t' :
  state_of (emplace t v) = Some t' ->
  sizeZ (fastHashInfo t') = sizeZ (fastHashInfo (allocateIfEmpty t)) \/
  1024 <= sizeZ (fastHashInfo t').
Proof.
  unfold emplace. intros H.
  destruct (checkIfOverflowPossible _); [left; by simplify_eq/=|].
  destruct (probe _ _ _ _ _ _) as [[loc|loc]|]; [| |done].
  - destruct (newIterator _ _ _) as [it0|]; [|done].
    destruct (overMaxLoad _).
    + destruct (rebalance _) as [t3|] eqn:E; [|done]. simpl in H. simplify_eq.
      simpl. apply rebalance_frame in E as (E & _). right. rewrite E.
      apply rebalance_newSize_floor.
    + simpl in H. simplify_eq. simpl. left. by rewrite sizeZ_setZ.
  - unfold appendMultimap in H.
    destruct (getRedirectInfo _ _); [|done].
    destruct MULTI.
    + destruct (nthZ _ _); [|done]. simpl in H. simplify_eq. by left.
    + apply returnIt_state in H as ->. by left.
Qed.

(** Every reachable table either has no bucket array and no entry, or has
    at least 1024 buckets. *)
Definition allocation_ok (t : SimpleHashTable) : Prop :=
  (sizeZ (fastHashInfo t) = 0 /\ arr t = []) \/ 1024 <= sizeZ (fastHashInfo t).

Lemma reachable_allocation_ok t : reachable t -> allocation_ok t.
Proof.
  induction 1 as [|n Hn|t v t' _ IH H|t k t' _ IH H|t it a t' _ IH H
                 |t t' _ IH H|t _ IH|t _ IH].
  - by left.
  - right. unfold new_table. simpl. rewrite sizeZ_replicate.
    destruct (n <? 1024) eqn:E; [lia|]. apply Z.ltb_ge in E. lia.
  - right. apply emplace_buckets in H as [H|H]; [|done].
    destruct (allocateIfEmpty_buckets t) as [[_ E]|[E1 E2]]; [lia|].
    rewrite E2 in H. destruct IH as [[IH _]|IH]; lia.
  - apply erase_frame in H as (H1 & H2 & H3).
    destruct IH as [[IH1 IH2]|IH].
    + rewrite H3; [by left|]. by rewrite IH2.
    + right. unfold sizeZ in *. by rewrite H1.
  - apply remove_frame in H as (H1 & H2 & H3).
    destruct IH as [[IH1 IH2]|IH].
    + rewrite H3; [by left|]. by rewrite IH2.
    + right. unfold sizeZ in *. by rewrite H1.
  - unfold forceRehash in H. destruct (rebalance t) as [t1|] eqn:E; [|done].
    simpl in H. simplify_eq. apply rebalance_frame in E as (E & _). right.
    rewrite E. apply rebalance_newSize_floor.
  - by left.
  - destruct IH as [[IH1 IH2]|IH].
    + left. unfold fastClear. simpl. split; [|done].
      apply sizeZ_zero_nil in IH1. by rewrite IH1.
    + right. unfold fastClear. simpl. by rewrite sizeZ_replicate.
Qed.

End BucketCounts.

(** Equality of tables and outcomes is decidable when it is for keys and
    entries; closed equations between them are settled by evaluation. *)
Section Decide.
Context {P : TableParams} `{!EqDecision Key} `{!EqDecision KeyValueType}.

#[global] Instance Iterator_eq_dec : EqDecision Iterator.
Proof. solve_decision. Defined.

#[global] Instance SimpleHashTable_eq_dec : EqDecision SimpleHashTable.
Proof. solve_decision. Defined.

#[global] Instance outcome_eq_dec {A} `{!EqDecision A} : EqDecision (outcome A).
Proof. solve_decision. Defined.

End Decide.

(** The decision procedure is looked up from the type alone, so that the
    two sides are only ever evaluated by the virtual machine. *)
Ltac vm_decide :=
  lazymatch goal with
  | |- @eq ?T ?a ?b =>
      let d := constr:(_ : EqDecision T) in
      apply (@bool_decide_eq_true_1 (a = b) (d a b)); vm_compute; reflexivity
  | |- ?G => apply (bool_decide_eq_true_1 G); vm_compute; reflexivity
  end.

(** Several facts about one scenario are evaluated together, as one
    equation between tuples, and taken apart afterwards. *)
Lemma pair_eq_inv {A B} (a a' : A) (b b' : B) :
  (a, b) = (a', b') -> a = a' /\ b = b'.
Proof. intros H. by injection H. Qed.

(** ** Concrete tables for the examples *)

Definition u64_single : TableParams := u64_map false false.
Definition u64_multi : TableParams := u64_map true false.

(** Calls on tables with 64-bit keys and string values. *)
Definition ins1 (k : Z) (s : string) : @call u64_single := @Insert u64_single (k, s).
Definition insM (k : Z) (s : string) : @call u64_multi := @Insert u64_multi (k, s).

(** The table a script leaves behind, started from a default-constructed
    one (the empty table again if the script does not run through). *)
Definition after {P : TableParams} (cs : list call) : SimpleHashTable :=
  default empty_table (run empty_table cs).

(** ** Insertion and lookup on single-variant tables *)

Section Single.
Context {P : TableParams}.

Lemma probe_empty_here fuel t ph eh k loc :
  (0 < fuel)%nat ->
  getLocationEmpty (fastHashInfo t) loc = Some true ->
  probe fuel t ph eh k loc = Some (inl loc).
Proof.
  intros Hf He. destruct fuel as [|fuel]; [lia|]. simpl. by rewrite He.
Qed.

Lemma newIterator_single t idx a :
  MULTI = false -> newIterator t idx a = Some (mkIt a idx None (rehashCounter t) NO_BUCKET).
Proof. intros HM. unfold newIterator. by rewrite HM. Qed.

(** An index of [arr] is always in range for the constructor's read. *)
Lemma newIterator_in_range t idx a :
  0 <= idx < sizeZ (arr t) ->
  exists c, newIterator t idx a = Some (mkIt a idx c (rehashCounter t) NO_BUCKET).
Proof.
  intros Hi. unfold newIterator. destruct MULTI; [|by eexists].
  destruct (idx <? size t); [|by eexists].
  destruct (nthZ_is_Some (arr t) idx Hi) as [l ->]. by eexists.
Qed.

(** On a single-variant table, when [find] locates the key of [v] (its
    result differs from [end()]) and the overflow guard passes, [emplace v]
    returns that very iterator and the table is unchanged: no entry is
    added, [size()] and the stored value stay as they were. *)
Lemma emplace_existing_key_single (t : SimpleHashTable) (v : KeyValueType)
    (it : Iterator) :
  MULTI = false ->
  checkIfOverflowPossible t = false ->
  find t (getKey v) = Ret it t ->
  (forall e, end_ t = Some e -> it_eqb it e = false) ->
  emplace t v = Ret it t /\
  (forall it' t', emplace t v = Ret it' t' ->
     size t' = size t /\ arr t' = arr t /\ find t' (getKey v) = Ret it t').
Proof.
  intros HM Hov Hfind Hne.
  assert (end_ t = Some (mkIt true (sizeZ (arr t)) None (rehashCounter t) NO_BUCKET))
    as He by (by apply newIterator_single).
  specialize (Hne _ He). unfold it_eqb in Hne. rewrite HM in Hne.
  cbn [index] in Hne. apply Z.eqb_neq in Hne.
  assert (emplace t v = Ret it t) as Hem.
  { unfold find, search in Hfind. rewrite He in Hfind. cbn [returnIt] in Hfind.
    destruct (sizeZ (arr t) =? 0) eqn:E0; [by simplify_eq|].
    destruct (sizeZ (fastHashInfo t) =? 0) eqn:EB; [done|].
    unfold emplace, allocateIfEmpty. rewrite EB, Hov.
    destruct (probe _ _ _ _ _ _) as [[loc|loc]|]; [by simplify_eq| |done].
    unfold appendMultimap. destruct (getRedirectInfo t loc); [|done].
    rewrite HM. done. }
  split; [done|]. intros it' t' H. rewrite Hem in H. by simplify_eq.
Qed.

End Single.

Section SingleExamples.
#[local] Existing Instance u64_single.

(** The scenario S1 as an instance: after [insert(1,"a"); insert(2,"b")] a
    third [insert(1,"c")] returns the iterator of the first entry. *)
Lemma emplace_existing_key_single_S1 :
  let t := after [ins1 1 "a"; ins1 2 "b"] in
  let it := mkIt false 0 None 0 1 in
  (MULTI = false /\
   checkIfOverflowPossible t = false /\
   find t 1 = Ret it t /\
   (forall e, end_ t = Some e -> it_eqb it e = false)) /\
  emplace t (1, "c"%string) = Ret it t /\
  size t = 2 /\
  arr t = [[(1, "a")]; [(2, "b")]]%string.
Proof.
  intros t it.
  assert (MULTI = false /\ checkIfOverflowPossible t = false /\
          find t 1 = Ret it t /\
          (forall e, end_ t = Some e -> it_eqb it e = false)) as Hyp.
  { split; [reflexivity|]. split; [vm_decide|]. split; [vm_decide|].
    assert (end_ t = Some (mkIt true 2 None 0 NO_BUCKET)) as He by vm_decide.
    clearbody t. intros e He'. rewrite He in He'. injection He' as <-.
    reflexivity. }
  split; [exact Hyp|].
  destruct Hyp as (H1 & H2 & H3 & H4).
  split; [|split; vm_decide].
  exact (proj1 (emplace_existing_key_single t (1, "c"%string) it H1 H2 H3 H4)).
Defined.

End SingleExamples.

(** ** The older table of src/SimpleHashTable.h *)

(** The header src/SimpleHashTable.h holds an earlier, single-variant table
    with the same control plane.  Its size-hint constructor and its
    [rebalance] are embedded here; [specialInsert] is the same function as in
    the newer table. *)
Module Header.
Section Header.
Context {P : TableParams}.

Record SimpleHashTable : Type := mkTable {
  fastHashInfo : list Z;
  redirectInfo : list HashRedirectPair;
  arr : list KeyValueType
}.

(** [SimpleHashTable(size_t initSize)]: exactly [initSize] buckets. *)
Definition new_table (initSize : Z) : SimpleHashTable :=
  mkTable (replicate (Z.to_nat initSize) 0) (replicate (Z.to_nat initSize) (0, 0)) [].

Definition getTotalBuckets (t : SimpleHashTable) : Z := sizeZ (fastHashInfo t).

Definition getPartialHashEx (t : SimpleHashTable) (loc : Z) : option Z :=
  fst <$> nthZ (redirectInfo t) loc.

Definition specialInsert (t : SimpleHashTable) (nodeLocation : Z)
    (fresh : list Z * list HashRedirectPair) : option (list Z * list HashRedirectPair) :=
  let '(newHashInfo, newRedirectInfo) := fresh in
  storedHash ← getPartialHashEx t nodeLocation;
  let hashLocation := storedHash mod sizeZ newHashInfo in
  loc ← first_empty (length newHashInfo) newHashInfo hashLocation;
  c ← nthZ (fastHashInfo t) nodeLocation;
  r ← nthZ (redirectInfo t) nodeLocation;
  Some (setZ newHashInfo loc c, setZ newRedirectInfo loc r).

Fixpoint rebalance_loop (t : SimpleHashTable) (todo : list Z)
    (fresh : list Z * list HashRedirectPair) : option (list Z * list HashRedirectPair) :=
  match todo with
  | [] => Some fresh
  | i :: todo' =>
      e ← getLocationEmpty (fastHashInfo t) i;
      fresh' ← (if e : bool then Some fresh else specialInsert t i fresh);
      rebalance_loop t todo' fresh'
  end.

(** [rebalance]: the fresh arrays have [fastHashInfo.size()*2] buckets,
    whatever the load. *)
Definition rebalance (t : SimpleHashTable) : option SimpleHashTable :=
  let newSize := wrap64 (sizeZ (fastHashInfo t) * 2) in
  let fresh := (replicate (Z.to_nat newSize) 0, replicate (Z.to_nat newSize) (0, 0)) in
  fresh' ← rebalance_loop t (Z.of_nat <$> seq 0 (length (fastHashInfo t))) fresh;
  Some (mkTable (fst fresh') (snd fresh') (arr t)).

Definition forceRehash := rebalance.

Lemma header_specialInsert_length t i fresh fresh' :
  specialInsert t i fresh = Some fresh' -> length (fst fresh') = length (fst fresh).
Proof.
  destruct fresh as [h r]. unfold specialInsert. intros H.
  inv_bind H. simplify_eq. simpl. by rewrite length_setZ.
Qed.

Lemma header_rebalance_loop_length t todo : forall fresh fresh',
  rebalance_loop t todo fresh = Some fresh' -> length (fst fresh') = length (fst fresh).
Proof.
  induction todo as [|i todo IH]; intros fresh fresh' H; simpl in H.
  - by simplify_eq.
  - destruct (getLocationEmpty (fastHashInfo t) i) as [e|]; [|done]. simpl in H.
    destruct e; simpl in H.
    + by apply IH.
    + destruct (specialInsert t i fresh) as [f1|] eqn:E; [|done]. simpl in H.
      apply IH in H. apply header_specialInsert_length in E. congruence.
Qed.

Lemma header_rebalance_doubles t t' :
  rebalance t = Some t' -> getTotalBuckets t' = wrap64 (getTotalBuckets t * 2).
Proof.
  unfold rebalance, getTotalBuckets. intros H.
  destruct (rebalance_loop _ _ _) as [fresh'|] eqn:E; [|done]. simpl in H.
  apply header_rebalance_loop_length in E. simpl in E. rewrite length_replicate in E.
  simplify_eq. simpl. unfold sizeZ at 1. rewrite E. apply Z2Nat.id.
  unfold wrap64. apply Z.mod_pos_bound. lia.
Qed.

End Header.
End Header.

(** ** The overflow guard and the floor on the bucket count *)

Section Guards.
Context {P : TableParams}.

(** C8. [emplace] throws exactly when the table is not BIG and holds
    [UINT_MAX - 1] entries.  Only the allocation of the first buckets comes
    before the guard, so the table left by the throw is the table as it was
    whenever it already had buckets, and on every reachable table (one
    without buckets holds no entry and cannot throw).  A BIG table never
    throws. *)
Theorem overflow_guard_precedes_mutation (t : SimpleHashTable) (v : KeyValueType) :
  ((exists w t', emplace t v = Throw w t') <->
   (BIG = false /\ sizeZ (arr t) = UINT_MAX - 1)) /\
  (forall w t', emplace t v = Throw w t' ->
     w = "TOO LARGE"%string /\ t' = allocateIfEmpty t /\
     (getTotalBuckets t <> 0 \/ reachable t -> t' = t)) /\
  (BIG = true -> forall w t', emplace t v <> Throw w t').
Proof.
  assert (checkIfOverflowPossible (allocateIfEmpty t) = true <->
          BIG = false /\ sizeZ (arr t) = UINT_MAX - 1) as Hchk.
  { unfold checkIfOverflowPossible. rewrite allocateIfEmpty_arr.
    destruct BIG; [split; [done|by intros [? _]]|].
    rewrite Z.eqb_eq. tauto. }
  assert (forall w t', emplace t v = Throw w t' ->
            checkIfOverflowPossible (allocateIfEmpty t) = true /\
            w = "TOO LARGE"%string /\ t' = allocateIfEmpty t) as Hthrow.
  { intros w t'. unfold emplace.
    destruct (checkIfOverflowPossible _); [intros; by simplify_eq|].
    destruct (probe _ _ _ _ _ _) as [[loc|loc]|]; [| |done].
    - destruct (newIterator _ _ _); [|done].
      destruct (if overMaxLoad _ then _ else _); done.
    - unfold appendMultimap.
      repeat case_match; done || (intros Hx; by apply returnIt_no_throw in Hx). }
  split; [split|split].
  - intros (w & t' & H). apply Hthrow in H as [H _]. by apply Hchk in H.
  - intros H. apply Hchk in H. unfold emplace. rewrite H. eauto.
  - intros w t' H. apply Hthrow in H as (H & -> & ->).
    split; [done|]. split; [done|].
    apply Hchk in H. destruct H as [_ H].
    destruct (allocateIfEmpty_buckets t) as [[E _]|[_ E]]; [|done].
    intros [Hb|Hreach]; [by destruct Hb|].
    apply reachable_allocation_ok in Hreach.
    destruct Hreach as [[_ Harr]|Hb]; [|lia].
    rewrite Harr in H. unfold UINT_MAX, sizeZ in H. simpl in H. lia.
  - intros HB w t' H. apply Hthrow in H as [H _]. apply Hchk in H.
    destruct H as [H _]. congruence.
Qed.

(** C9, as amended.  The newer table: a size hint [n] gives [max(n, 1024)]
    buckets; a reachable table has none or at least 1024; the first
    insertion into a table without buckets returns and leaves exactly 1024;
    [rebalance] never installs fewer than 1024.  The older table of
    src/SimpleHashTable.h has no floor: a size hint [n] gives exactly [n]
    buckets, and its [rebalance] doubles the count it finds. *)
Theorem minimum_bucket_count (t : SimpleHashTable) (n : Z) (v : KeyValueType)
    (h : Header.SimpleHashTable) :
  reachable t -> 0 <= n ->
  (getTotalBuckets (new_table n) = Z.max n 1024 /\
   (getTotalBuckets t = 0 \/ 1024 <= getTotalBuckets t) /\
   (getTotalBuckets t = 0 ->
      exists it t', emplace t v = Ret it t' /\ getTotalBuckets t' = 1024) /\
   (forall t', rebalance t = Some t' -> 1024 <= getTotalBuckets t')) /\
  (Header.getTotalBuckets (Header.new_table n) = n /\
   (forall h', Header.rebalance h = Some h' ->
      Header.getTotalBuckets h' = wrap64 (Header.getTotalBuckets h * 2))).
Proof.
  intros Hreach Hn. apply reachable_allocation_ok in Hreach.
  split; [|split; [|apply Header.header_rebalance_doubles]].
  2:{ unfold Header.getTotalBuckets, Header.new_table. cbn [Header.fastHashInfo].
      rewrite sizeZ_replicate. by apply Z2Nat.id. }
  unfold getTotalBuckets. repeat split.
  - unfold new_table. cbn [fastHashInfo]. rewrite sizeZ_replicate.
    destruct (n <? 1024) eqn:E; [apply Z.ltb_lt in E|apply Z.ltb_ge in E]; lia.
  - destruct Hreach as [[H _]|H]; [by left|by right].
  - intros HB. destruct Hreach as [[_ Harr]|H]; [|lia].
    unfold emplace, allocateIfEmpty. rewrite HB. cbn [Z.eqb].
    set (ta := mkTable _ _ _ _ _ _).
    assert (checkIfOverflowPossible ta = false) as ->.
    { unfold checkIfOverflowPossible, ta. cbn [arr]. rewrite Harr.
      by destruct BIG. }
    set (hv := wrap64 (hasher (getKey v))).
    assert (0 <= hv mod sizeZ (fastHashInfo ta) < 1024) as Hloc.
    { unfold ta. cbn [fastHashInfo]. rewrite sizeZ_replicate.
      apply Z.mod_pos_bound. lia. }
    rewrite (probe_empty_here _ ta _ _ _ (hv mod sizeZ (fastHashInfo ta))).
    + set (t2 := mkTable _ _ _ _ _ _).
      destruct (newIterator_in_range t2 (sizeZ (arr t2) - 1) false) as [c ->].
      { unfold t2, attemptToAdd, ta. cbn [arr]. rewrite Harr. unfold sizeZ.
        simpl. lia. }
      assert (overMaxLoad t2 = false) as ->.
      { unfold overMaxLoad, t2. cbn [arr fastHashInfo attemptToAdd ta].
        rewrite sizeZ_setZ, sizeZ_replicate, Harr. reflexivity. }
      eexists _, _. split; [reflexivity|].
      unfold t2. cbn [fastHashInfo attemptToAdd ta].
      by rewrite sizeZ_setZ, sizeZ_replicate.
    + unfold ta. cbn [fastHashInfo]. rewrite length_replicate. lia.
    + unfold getLocationEmpty, nthZ, ta. cbn [fastHashInfo].
      rewrite lookup_replicate_2; [done|]. unfold ta in Hloc.
      cbn [fastHashInfo] in Hloc. lia.
  - intros t' H. apply rebalance_frame in H as (H & _). rewrite H.
    apply rebalance_newSize_floor.
Qed.

(** C10. On a table whose entry array is empty, allocated or not, [find]
    and [erase] return what [end()] returns and leave the table alone;
    neither hashes the key nor divides by the bucket count.  [end()] is
    the iterator at index 0 there, on every single-variant table and on
    every multi table that counts zero elements. *)
Theorem empty_table_find_erase (t : SimpleHashTable) (k : Key) :
  arr t = [] ->
  (find t k = returnIt (end_ t) t /\ erase t k = returnIt (end_ t) t) /\
  (MULTI = false \/ size t <= 0 ->
   let e := mkIt true 0 None (rehashCounter t) NO_BUCKET in
   end_ t = Some e /\ find t k = Ret e t /\ erase t k = Ret e t).
Proof.
  intros H. assert (find t k = returnIt (end_ t) t) as Hf.
  { unfold find, search. by rewrite H. }
  assert (erase t k = returnIt (end_ t) t) as He.
  { unfold erase. rewrite Hf. destruct (end_ t) as [e|] eqn:Ee; [|done].
    cbn [returnIt]. unfold remove. by rewrite H, Ee. }
  split; [done|]. intros Hz e.
  assert (end_ t = Some e) as Hend.
  { unfold end_, newIterator. rewrite H. change (sizeZ []) with 0.
    destruct Hz as [->|Hz]; [done|]. destruct MULTI; [|done].
    destruct (0 <? size t) eqn:E; [apply Z.ltb_lt in E; lia|done]. }
  rewrite Hf, He, Hend. done.
Qed.

End Guards.

Section GuardExamples.
#[local] Existing Instance u64_single.

(** A non-BIG table with buckets whose entry array holds [UINT_MAX - 1]
    entries; the array is never traversed, only measured. *)
Definition full_table : SimpleHashTable :=
  mkTable (replicate 1024 0) (replicate 1024 (0, 0))
          (replicate (Z.to_nat (UINT_MAX - 1)) [(0, ""%string)]) []
          (UINT_MAX - 1) 0.

Lemma overflow_guard_precedes_mutation_witness :
  let t := full_table in
  let v := (1, "a"%string) in
  (BIG = false /\ sizeZ (arr t) = UINT_MAX - 1) /\
  emplace t v = Throw "TOO LARGE" t.
Proof.
  intros t v.
  assert (BIG = false /\ sizeZ (arr t) = UINT_MAX - 1) as H.
  { split; [reflexivity|]. unfold t, full_table. cbn [arr].
    rewrite sizeZ_replicate. apply Z2Nat.id. unfold UINT_MAX. lia. }
  assert (getTotalBuckets t <> 0) as Hb.
  { unfold t, full_table, getTotalBuckets. cbn [fastHashInfo].
    rewrite sizeZ_replicate. lia. }
  split; [exact H|].
  destruct (overflow_guard_precedes_mutation t v) as (Hiff & Hsame & _).
  destruct (proj2 Hiff H) as (w & t' & Hthrow).
  destruct (Hsame w t' Hthrow) as (Hw & _ & Ht).
  rewrite Hw, (Ht (or_introl Hb)) in Hthrow. exact Hthrow.
Defined.

(** The older table built with a size hint of 10 has 10 buckets, fewer than
    1024 and not [max(10, 1024)], and a forced rehash gives it 20. *)
Lemma header_size_hint_below_floor :
  Header.getTotalBuckets (Header.new_table 10) = 10 /\
  10 <> Z.max 10 1024 /\
  Header.forceRehash (Header.new_table 10) =
    Some (Header.mkTable (replicate 20 0) (replicate 20 (0, 0)) []).
Proof. split; [reflexivity|]. split; [lia|reflexivity]. Qed.

Lemma minimum_bucket_count_witness :
  let t := empty_table in
  let v := (1, "a"%string) in
  let h := Header.new_table 10 in
  (reachable t /\ 0 <= 10) /\
  (getTotalBuckets (new_table 10) = Z.max 10 1024 /\
   (getTotalBuckets t = 0 \/ 1024 <= getTotalBuckets t) /\
   (getTotalBuckets t = 0 ->
      exists it t', emplace t v = Ret it t' /\ getTotalBuckets t' = 1024) /\
   (forall t', rebalance t = Some t' -> 1024 <= getTotalBuckets t')) /\
  (Header.getTotalBuckets (Header.new_table 10) = 10 /\
   (forall h', Header.rebalance h = Some h' ->
      Header.getTotalBuckets h' = wrap64 (Header.getTotalBuckets h * 2))).
Proof.
  intros t v h. split; [split; [apply reach_default|lia]|].
  apply (minimum_bucket_count t 10 v h); [apply reach_default|lia].
Defined.

Lemma empty_table_find_erase_witness :
  let t := empty_table in
  let e := mkIt true 0 None 0 NO_BUCKET in
  arr t = [] /\ getTotalBuckets t = 0 /\
  end_ t = Some e /\ find t 7 = Ret e t /\ erase t 7 = Ret e t.
Proof.
  intros t e. split; [reflexivity|]. split; [reflexivity|].
  apply (proj2 (empty_table_find_erase t 7 eq_refl)). by left.
Defined.

End GuardExamples.

(** ** Rounding and the load thresholds *)



















(** ** What one [emplace] does to the counters *)

Section EmplaceShape.
Context {P : TableParams}.

Lemma wrap64_succ_ne r : wrap64 (r + 1) <> r.
Proof.
  unfold wrap64. intros H.
  pose proof (Z.mod_pos_bound (r + 1) (2 ^ 64) ltac:(done)) as Hb.
  pose proof (Z.div_mod (r + 1) (2 ^ 64) ltac:(done)) as Hd.
  change (2 ^ 64) with 18446744073709551616 in *. lia.
Qed.

(** The three ways [emplace] can return: the key was found (nothing is
    added to the entry array), a bucket was added below the load limit, or
    a bucket was added and the table was rebuilt. *)
Lemma emplace_summary t v it t' :
  emplace t v = Ret it t' ->
  let B := sizeZ (fastHashInfo (allocateIfEmpty t)) in
  (sizeZ (arr t') = sizeZ (arr t) /\ rehashCounter t' = rehashCounter t /\
   sizeZ (fastHashInfo t') = B /\
   totalElements t' = if MULTI then wrap64 (totalElements t + 1) else totalElements t) \/
  (arr t' = arr t ++ [[v]] /\ load_exceeds (sizeZ (arr t) + 1) B = false /\
   rehashCounter t' = rehashCounter t /\ sizeZ (fastHashInfo t') = B /\
   totalElements t' = wrap64 (totalElements t + 1)) \/
  (arr t' = arr t ++ [[v]] /\ load_exceeds (sizeZ (arr t) + 1) B = true /\
   rehashCounter t' = wrap64 (rehashCounter t + 1) /\
   sizeZ (fastHashInfo t') = rebalance_newSize (sizeZ (arr t) + 1) B /\
   totalElements t' = wrap64 (totalElements t + 1)).
Proof.
  intros H B. unfold emplace in H.
  assert (arr (allocateIfEmpty t) = arr t /\
          rehashCounter (allocateIfEmpty t) = rehashCounter t /\
          totalElements (allocateIfEmpty t) = totalElements t) as (Ha & Hr & Ht).
  { unfold allocateIfEmpty. by destruct (_ =? _). }
  set (ta := allocateIfEmpty t) in *.
  destruct (checkIfOverflowPossible ta); [done|].
  destruct (probe _ _ _ _ _ _) as [[loc|loc]|]; [| |done].
  - right.
    assert (overMaxLoad
              (mkTable (setZ (fastHashInfo (attemptToAdd ta v)) loc
                          (extractPartialHash (wrap64 (hasher (getKey v)))))
                       (setZ (redirectInfo (attemptToAdd ta v)) loc
                          (toRedirect (wrap64 (hasher (getKey v))),
                           toRedirect (sizeZ (arr (attemptToAdd ta v)) - 1)))
                       (arr (attemptToAdd ta v)) (extraKeyStorage (attemptToAdd ta v))
                       (totalElements (attemptToAdd ta v))
                       (rehashCounter (attemptToAdd ta v)))
            = load_exceeds (sizeZ (arr t) + 1) B) as Hload.
    { unfold overMaxLoad. cbn [arr fastHashInfo attemptToAdd].
      rewrite sizeZ_setZ, sizeZ_app, Ha. done. }
    destruct (newIterator _ _ _) as [it0|]; [|done].
    rewrite Hload in H. destruct (load_exceeds _ _).
    + right. destruct (rebalance _) as [t3|] eqn:E; [|done]. simplify_eq. cbn.
      apply rebalance_frame in E as (E1 & _ & E2 & _ & E3 & E4).
      cbn [arr fastHashInfo attemptToAdd totalElements rehashCounter] in *.
      rewrite sizeZ_setZ, sizeZ_app in E1. rewrite E1, E2, E3, E4, Ha, Hr, Ht. done.
    + left. simplify_eq. cbn. rewrite sizeZ_setZ, Ha, Hr, Ht. done.
  - left. unfold appendMultimap in H.
    destruct (getRedirectInfo ta loc) as [i|]; [|done].
    destruct MULTI.
    + destruct (nthZ (arr ta) i) as [l|]; [|done]. simplify_eq. cbn.
      rewrite sizeZ_setZ, Ha, Hr, Ht. done.
    + apply returnIt_Ret in H as [_ ->]. by rewrite Ha, Hr, Ht.
Qed.



End EmplaceShape.


(** ** The two structural invariants of the control plane *)

Section Invariants.
Context {P : TableParams}.

Definition occupied (t : SimpleHashTable) (b : Z) : Prop :=
  exists c, nthZ (fastHashInfo t) b = Some c /\ c <> 0.

(** Every slot on the probe path of an occupied bucket, from the start
    position its stored hash gives up to the bucket itself, is occupied. *)
Definition probing_invariant (t : SimpleHashTable) : Prop :=
  forall b h d,
    occupied t b -> getPartialHashEx t b = Some h ->
    let B := sizeZ (fastHashInfo t) in
    0 <= d <= (b - h mod B) mod B ->
    occupied t ((h mod B + d) mod B).

(** The entry indices held by the occupied buckets, in bucket order. *)
Definition referenced (t : SimpleHashTable) : list Z :=
  omap (fun cr : Z * HashRedirectPair =>
          if fst cr =? 0 then None else Some (snd (snd cr)))
       (zip (fastHashInfo t) (redirectInfo t)).

(** They are the indices [0 .. |arr|-1], each exactly once. *)
Definition redirect_permutation (t : SimpleHashTable) : Prop :=
  referenced t ≡ₚ (Z.of_nat <$> seq 0 (length (arr t))).

End Invariants.

(** The table a script leaves behind when started from [t0]. *)
Definition after_on {P : TableParams} (t0 : SimpleHashTable) (cs : list call)
    : SimpleHashTable :=
  default t0 (run t0 cs).

Definition era1 (k : Z) : @call u64_single := @Erase u64_single k.
Definition eraM (k : Z) : @call u64_multi := @Erase u64_multi k.

Section Defects.
#[local] Existing Instance u64_single.

(** C1 on a table built with a size hint of 3000 (32-bit stored hashes, a
    hash functor that returns the key): the key [2^32 + 7] is inserted at
    bucket [(2^32 + 7) mod 3000 = 2303] and found there.  [forceRehash]
    keeps [size()] and the entry array, shrinks the table to 1500 buckets
    and places the bucket from its stored, truncated hash at [7 mod 1500];
    [find] then probes from [(2^32 + 7) mod 1500 = 803] and returns
    [end()]. *)
Theorem forceRehash_loses_key :
  let k := 4294967303 in
  let t := after_on (new_table 3000) [ins1 k "a"] in
  let t' := after_on (new_table 3000) [ins1 k "a"; ForceRehash] in
  let e := mkIt true 1 None 1 NO_BUCKET in
  forceRehash t = Ret tt t' /\
  size t' = size t /\ arr t' = arr t /\
  getTotalBuckets t = 3000 /\ getTotalBuckets t' = 1500 /\
  getPartialHashEx t 2303 = Some 7 /\ getPartialHashEx t' 7 = Some 7 /\
  find t k = Ret (mkIt false 0 None 0 2303) t /\
  end_ t' = Some e /\ find t' k = Ret e t'.
Proof.
  intros k t t' e.
  assert ((forceRehash t, (size t', (arr t', (getTotalBuckets t,
            (getTotalBuckets t', (getPartialHashEx t 2303,
              (getPartialHashEx t' 7, (find t k, (end_ t', find t' k)))))))))
          = (Ret tt t', (size t, (arr t, (3000, (1500, (Some 7, (Some 7,
              (Ret (mkIt false 0 None 0 2303) t, (Some e, Ret e t'))))))))))
    as H by vm_decide.
  clearbody t t' k.
  apply pair_eq_inv in H as [H1 H]. apply pair_eq_inv in H as [H2 H].
  apply pair_eq_inv in H as [H3 H]. apply pair_eq_inv in H as [H4 H].
  apply pair_eq_inv in H as [H5 H]. apply pair_eq_inv in H as [H6 H].
  apply pair_eq_inv in H as [H7 H]. apply pair_eq_inv in H as [H8 H].
  apply pair_eq_inv in H as [H9 H10].
  exact (conj H1 (conj H2 (conj H3 (conj H4 (conj H5 (conj H6 (conj H7
           (conj H8 (conj H9 H10))))))))).
Qed.

(** C3 on a default table: insert keys 6, 5 and 1029 (start positions 6, 5
    and 5, so 1029 lands in bucket 7), then erase 5.  The backward shift
    stops at bucket 6, which sits at its start position, and leaves bucket
    5 empty on the probe path of bucket 7: the invariant is broken and
    [find(1029)] returns [end()] although the entry is still stored. *)
Theorem erase_leaves_gap_on_probe_path :
  let t := after [ins1 6 "x"; ins1 5 "a"; ins1 1029 "c"; era1 5] in
  let e := mkIt true 2 None 0 NO_BUCKET in
  arr t = [[(6, "x")]; [(1029, "c")]]%string /\
  nthZ (fastHashInfo t) 7 = Some 247 /\ getPartialHashEx t 7 = Some 1029 /\
  nthZ (fastHashInfo t) 5 = Some 0 /\
  ~ probing_invariant t /\
  end_ t = Some e /\ find t 1029 = Ret e t.
Proof.
  intros t e.
  assert (nthZ (fastHashInfo t) 7 = Some 247) as H7 by vm_decide.
  assert (nthZ (fastHashInfo t) 5 = Some 0) as H5 by vm_decide.
  assert (getPartialHashEx t 7 = Some 1029) as Hh by vm_decide.
  assert (sizeZ (fastHashInfo t) = 1024) as HB by vm_decide.
  split; [vm_decide|]. split; [exact H7|]. split; [exact Hh|]. split; [exact H5|].
  split; [|split; vm_decide].
  clearbody t. intros Hinv.
  destruct (Hinv 7 1029 0) as (c & Hc & Hne).
  - exists 247. split; [exact H7|lia].
  - exact Hh.
  - rewrite HB. change ((7 - 1029 mod 1024) mod 1024) with 2. lia.
  - rewrite HB in Hc. change ((1029 mod 1024 + 0) mod 1024) with 5 in Hc.
    rewrite H5 in Hc. congruence.
Qed.

(** C4 on a default table: insert keys 5 and 1029 (buckets 5 and 6), then
    erase 5.  The backward shift copies bucket 6 into bucket 5 and never
    clears bucket 6, so two occupied buckets refer to entry 0. *)
Theorem erase_leaves_stale_bucket :
  let t := after [ins1 5 "a"; ins1 1029 "c"; era1 5] in
  arr t = [[(1029, "c")]]%string /\
  nthZ (fastHashInfo t) 5 = Some 247 /\ nthZ (redirectInfo t) 5 = Some (1029, 0) /\
  nthZ (fastHashInfo t) 6 = Some 247 /\ nthZ (redirectInfo t) 6 = Some (1029, 0) /\
  referenced t = [0; 0] /\
  ~ redirect_permutation t.
Proof.
  intros t.
  assert (referenced t = [0; 0]) as Href by vm_decide.
  assert (length (arr t) = 1%nat) as Hlen by vm_decide.
  split; [vm_decide|]. split; [vm_decide|]. split; [vm_decide|].
  split; [vm_decide|]. split; [vm_decide|]. split; [exact Href|].
  clearbody t. unfold redirect_permutation. rewrite Href, Hlen. intros Hp.
  apply Permutation_length in Hp. discriminate Hp.
Qed.



(** Keys [0 .. n-1], inserted in order. *)
Definition first_keys (n : nat) : list (@call u64_single) :=
  (fun i => ins1 (Z.of_nat i) "") <$> seq 0 n.


(** C2 on a single-variant table built with a size hint of 1025 that holds
    the keys 0..819.  Inserting [k = 2^32 + 900] stores the 821st entry,
    which rebuilds the table with 2050 buckets and places the bucket of [k]
    from its stored 32-bit hash, at 900.  The key is stored, yet a second
    [insert] with [k] probes from [k mod 2050 = 896], meets an empty bucket
    and adds a second entry: the size grows to 822, the iterator returned is
    that of the new entry, and [find(k)] now yields the second value.  The
    same happens without any rehash after [erase] has cut a probe path:
    insert 6, 5, 1029, erase 5, insert 1029 again. *)
Theorem emplace_adds_second_entry_for_stored_key :
  let k := 4294968196 in
  let t0 := after_on (new_table 1025) (first_keys 820) in
  let t1 := after_on t0 [ins1 k "a"] in
  let t2 := after_on t1 [ins1 k "c"] in
  let u := after [ins1 6 "x"; ins1 5 "a"; ins1 1029 "c"; era1 5] in
  let u' := after_on u [ins1 1029 "d"] in
  (size t0 = 820 /\ getTotalBuckets t0 = 1025 /\
   size t1 = 821 /\ getTotalBuckets t1 = 2050 /\
   drop 820 (arr t1) = [[(k, "a")]]%string /\
   getPartialHashEx t1 900 = Some 900 /\
   emplace t1 (k, "c"%string) = Ret (mkIt false 821 None 1 896) t2 /\
   size t2 = 822 /\
   drop 820 (arr t2) = [[(k, "a")]; [(k, "c")]]%string /\
   find t2 k = Ret (mkIt false 821 None 1 896) t2) /\
  (arr u = [[(6, "x")]; [(1029, "c")]]%string /\
   emplace u (1029, "d"%string) = Ret (mkIt false 2 None 0 5) u' /\
   size u' = 3 /\
   arr u' = [[(6, "x")]; [(1029, "c")]; [(1029, "d")]]%string /\
   find u' 1029 = Ret (mkIt false 2 None 0 5) u').
Proof.
  intros k t0 t1 t2 u u'.
  assert ((size t0, (getTotalBuckets t0, (size t1, (getTotalBuckets t1,
            (drop 820 (arr t1), (getPartialHashEx t1 900,
              (emplace t1 (k, "c"%string), (size t2, (drop 820 (arr t2),
                find t2 k)))))))))
          = (820, (1025, (821, (2050, ([[(k, "a")]]%string, (Some 900,
              (Ret (mkIt false 821 None 1 896) t2, (822,
                ([[(k, "a")]; [(k, "c")]]%string,
                 Ret (mkIt false 821 None 1 896) t2)))))))))) as H by vm_decide.
  assert ((arr u, (emplace u (1029, "d"%string), (size u', (arr u', find u' 1029))))
          = ([[(6, "x")]; [(1029, "c")]]%string,
             (Ret (mkIt false 2 None 0 5) u', (3,
               ([[(6, "x")]; [(1029, "c")]; [(1029, "d")]]%string,
                Ret (mkIt false 2 None 0 5) u'))))) as G by vm_decide.
  clearbody t0 t1 t2 u u' k.
  apply pair_eq_inv in H as [H1 H]. apply pair_eq_inv in H as [H2 H].
  apply pair_eq_inv in H as [H3 H]. apply pair_eq_inv in H as [H4 H].
  apply pair_eq_inv in H as [H5 H]. apply pair_eq_inv in H as [H6 H].
  apply pair_eq_inv in H as [H7 H]. apply pair_eq_inv in H as [H8 H].
  apply pair_eq_inv in H as [H9 H10].
  apply pair_eq_inv in G as [G1 G]. apply pair_eq_inv in G as [G2 G].
  apply pair_eq_inv in G as [G3 G]. apply pair_eq_inv in G as [G4 G5].
  split.
  - exact (conj H1 (conj H2 (conj H3 (conj H4 (conj H5 (conj H6 (conj H7
             (conj H8 (conj H9 H10))))))))).
  - exact (conj G1 (conj G2 (conj G3 (conj G4 G5)))).
Qed.

End Defects.


(** ** The probe, the multi insertion path and the loops of [remove] *)

Section Multi.
Context {P : TableParams}.

Lemma extractPartialHash_nonzero hash : extractPartialHash hash <> 0.
Proof.
  unfold extractPartialHash, wrap8, VALID_BIT. intros H.
  assert (Z.testbit (Z.lor (rapid_mix hash 11376068507788127593) 128 mod 2 ^ 8) 7 = true)
    as Hbit.
  { rewrite Z.mod_pow2_bits_low by lia. rewrite Z.lor_spec.
    apply orb_true_iff. right. reflexivity. }
  rewrite H in Hbit. by rewrite Z.bits_0 in Hbit.
Qed.

Lemma probe_inl_empty fuel : forall t ph eh k s loc,
  probe fuel t ph eh k s = Some (inl loc) ->
  getLocationEmpty (fastHashInfo t) loc = Some true.
Proof.
  induction fuel as [|fuel IH]; intros t ph eh k s loc H; simpl in H; [done|].
  destruct (getLocationEmpty (fastHashInfo t) s) as [[]|] eqn:E; simpl in H; [| |done].
  - by simplify_eq.
  - destruct (checkForDuplicate t s ph eh k) as [[]|]; simpl in H; [done| |done].
    by eapply IH.
Qed.


(** On a multi table the probe reads the control bytes, the redirect pairs
    and the key array, never the entries. *)
Lemma checkForDuplicate_ext_multi t1 t2 loc ph eh k :
  MULTI = true ->
  fastHashInfo t1 = fastHashInfo t2 -> redirectInfo t1 = redirectInfo t2 ->
  extraKeyStorage t1 = extraKeyStorage t2 ->
  checkForDuplicate t1 loc ph eh k = checkForDuplicate t2 loc ph eh k.
Proof.
  intros HM H1 H2 H3.
  unfold checkForDuplicate, getPartialHash, comparePartialHashEx, getPartialHashEx,
    getRedirectInfo.
  by rewrite HM, H1, H2, H3.
Qed.

Lemma probe_ext_multi fuel : forall t1 t2 ph eh k s,
  MULTI = true ->
  fastHashInfo t1 = fastHashInfo t2 -> redirectInfo t1 = redirectInfo t2 ->
  extraKeyStorage t1 = extraKeyStorage t2 ->
  probe fuel t1 ph eh k s = probe fuel t2 ph eh k s.
Proof.
  induction fuel as [|fuel IH]; intros t1 t2 ph eh k s HM H1 H2 H3; simpl; [done|].
  rewrite (checkForDuplicate_ext_multi t1 t2) by done. rewrite H1.
  destruct (getLocationEmpty (fastHashInfo t2) s) as [[]|]; simpl; [done| |done].
  destruct (checkForDuplicate t2 s ph eh k) as [[]|]; simpl; [done| |done].
  by apply IH.
Qed.


(** What [emplace] did when it returned with one more bucket and without
    rebuilding the table. *)
Lemma emplace_new_bucket t v it t' :
  emplace t v = Ret it t' ->
  arr t' = arr t ++ [[v]] -> rehashCounter t' = rehashCounter t ->
  let ta := allocateIfEmpty t in
  let h := wrap64 (hasher (getKey v)) in
  exists loc,
    probe (length (fastHashInfo ta)) ta (extractPartialHash h)
          (extractPartialHashEx h) (getKey v) (h mod sizeZ (fastHashInfo ta))
      = Some (inl loc) /\
    checkIfOverflowPossible ta = false /\
    fastHashInfo t' = setZ (fastHashInfo ta) loc (extractPartialHash h) /\
    redirectInfo t' =
      setZ (redirectInfo ta) loc (toRedirect h, toRedirect (sizeZ (arr t))) /\
    extraKeyStorage t' =
      (if MULTI then extraKeyStorage t ++ [getKey v] else extraKeyStorage t) /\
    totalElements t' = wrap64 (totalElements t + 1) /\
    it = mkIt false (sizeZ (arr t))
              (if MULTI then (if sizeZ (arr t) <? totalElements t then Some 0%nat else None)
               else None)
              (rehashCounter t) loc.
Proof.
  intros H Harr Hrc ta h. unfold emplace in H. fold ta h in H.
  assert (arr ta = arr t /\ rehashCounter ta = rehashCounter t /\
          totalElements ta = totalElements t /\ extraKeyStorage ta = extraKeyStorage t)
    as (Ha & Hr & Ht & Hk).
  { unfold ta, allocateIfEmpty. by destruct (_ =? _). }
  destruct (checkIfOverflowPossible ta); [done|].
  destruct (probe _ _ _ _ _ _) as [[loc|loc]|]; [| |done].
  - exists loc. split; [done|]. split; [done|].
    assert (sizeZ (arr ta ++ [[v]]) - 1 = sizeZ (arr t)) as Hsz.
    { rewrite sizeZ_app, Ha. unfold sizeZ. simpl. lia. }
    destruct (newIterator _ _ _) as [it0|] eqn:Enew; [|done].
    assert (it0 = mkIt false (sizeZ (arr t))
                    (if MULTI
                     then (if sizeZ (arr t) <? totalElements t then Some 0%nat else None)
                     else None)
                    (rehashCounter t) NO_BUCKET) as ->.
    { unfold newIterator, size in Enew.
      cbn [arr totalElements rehashCounter attemptToAdd] in Enew.
      rewrite Hsz, ?Ha, ?Hr, ?Ht in Enew.
      destruct MULTI; [|by simplify_eq].
      destruct (sizeZ (arr t) <? totalElements t); [|by simplify_eq].
      unfold nthZ, sizeZ in Enew.
      rewrite Nat2Z.id, list_lookup_middle in Enew by done. by simplify_eq. }
    destruct (overMaxLoad _).
    + destruct (rebalance _) as [t3|] eqn:E; [|done]. simplify_eq.
      apply rebalance_frame in E as (_ & _ & _ & _ & _ & E).
      cbn [rehashCounter attemptToAdd] in *. rewrite Hr in E. rewrite E in Hrc.
      by apply wrap64_succ_ne in Hrc.
    + simplify_eq. cbn [fastHashInfo redirectInfo extraKeyStorage totalElements
                         attemptToAdd arr rehashCounter].
      rewrite Hsz, Hk, Ht. repeat split; done.
  - exfalso. unfold appendMultimap in H.
    destruct (getRedirectInfo ta loc) as [i|]; [|done].
    assert (length (arr t') = length (arr t) -> False) as Hlen.
    { rewrite Harr, length_app. simpl. lia. }
    destruct MULTI.
    + destruct (nthZ (arr ta) i) as [l|]; [|done]. simplify_eq.
      apply Hlen. cbn [arr]. by rewrite length_setZ, Ha.
    + apply returnIt_Ret in H as [_ ->]. apply Hlen. by rewrite Ha.
Qed.

(** Inserting a key that the probe finds appends to its bucket. *)
Lemma emplace_append t v loc i l :
  MULTI = true ->
  sizeZ (fastHashInfo t) <> 0 ->
  checkIfOverflowPossible t = false ->
  (let h := wrap64 (hasher (getKey v)) in
   probe (length (fastHashInfo t)) t (extractPartialHash h) (extractPartialHashEx h)
         (getKey v) (h mod sizeZ (fastHashInfo t)) = Some (inr loc)) ->
  getRedirectInfo t loc = Some i ->
  nthZ (arr t) i = Some l ->
  emplace t v =
    Ret (mkIt false i (Some (length l)) (rehashCounter t) loc)
        (mkTable (fastHashInfo t) (redirectInfo t) (setZ (arr t) i (l ++ [v]))
                 (extraKeyStorage t) (wrap64 (totalElements t + 1)) (rehashCounter t)).
Proof.
  intros HM HB Hov Hp Hi Hl. unfold emplace, allocateIfEmpty.
  apply Z.eqb_neq in HB. rewrite HB, Hov. cbv zeta in Hp. rewrite Hp.
  unfold appendMultimap. by rewrite Hi, HM, Hl.
Qed.


(** Further insertions of the key all land in the bucket the probe finds. *)
Lemma run_appends vs : forall t loc i l k,
  MULTI = true ->
  sizeZ (fastHashInfo t) <> 0 ->
  checkIfOverflowPossible t = false ->
  Forall (fun x => getKey x = k) vs ->
  (let h := wrap64 (hasher k) in
   probe (length (fastHashInfo t)) t (extractPartialHash h) (extractPartialHashEx h)
         k (h mod sizeZ (fastHashInfo t)) = Some (inr loc)) ->
  getRedirectInfo t loc = Some i ->
  nthZ (arr t) i = Some l ->
  0 <= totalElements t -> totalElements t + sizeZ vs < 2 ^ 64 ->
  run t (Insert <$> vs) =
    Some (mkTable (fastHashInfo t) (redirectInfo t) (setZ (arr t) i (l ++ vs))
                  (extraKeyStorage t) (totalElements t + sizeZ vs) (rehashCounter t)).
Proof.
  induction vs as [|v vs IH]; intros t loc i l k HM HB Hov Hall Hp Hi Hl Ht0 Ht1.
  - simpl. f_equal. destruct t as [a b c d e f]. cbn in *. f_equal.
    + rewrite app_nil_r. unfold setZ, nthZ in *. by rewrite list_insert_id.
    + unfold sizeZ. simpl. lia.
  - apply Forall_cons in Hall as [Hv Hall].
    rewrite fmap_cons. cbn [run step].
    assert (sizeZ (v :: vs) = 1 + sizeZ vs) as Hsz by (unfold sizeZ; simpl; lia).
    rewrite Hsz in Ht1. pose proof (sizeZ_nonneg vs) as Hvs.
    rewrite (emplace_append t v loc i l HM HB Hov) by (by rewrite ?Hv).
    cbn [mbind option_bind].
    assert (wrap64 (totalElements t + 1) = totalElements t + 1) as Hw.
    { unfold wrap64. apply Z.mod_small. lia. }
    rewrite Hw.
    set (t1 := mkTable _ _ _ _ _ _).
    rewrite (IH t1 loc i (l ++ [v]) k); try done.
    + unfold t1. cbn. f_equal. f_equal.
      * unfold setZ. rewrite list_insert_insert_eq. by rewrite <- app_assoc.
      * lia.
    + unfold checkIfOverflowPossible in *. unfold t1. cbn [arr].
      by rewrite sizeZ_setZ.
    + cbv zeta. rewrite <- Hp. unfold t1. cbn [fastHashInfo].
      by apply probe_ext_multi.
    + unfold t1. cbn [arr]. unfold nthZ, setZ in *. apply list_lookup_insert_eq.
      by apply lookup_lt_Some in Hl.
    + unfold t1. cbn. lia.
    + unfold t1. cbn. lia.
Qed.

(** What a successful duplicate test has read. *)
Lemma checkForDuplicate_reads t s ph eh k d :
  checkForDuplicate t s ph eh k = Some d ->
  exists c, getPartialHash t s = Some c /\
    ((c =? ph) = false /\ d = false \/
     (c =? ph) = true /\
     exists same, comparePartialHashEx t s eh = Some same /\
       (same = false /\ d = false \/
        same = true /\ exists i, getRedirectInfo t s = Some i)).
Proof.
  unfold checkForDuplicate. intros H.
  destruct (getPartialHash t s) as [c|]; simpl in H; [|done].
  exists c. split; [done|].
  destruct (c =? ph); [|left; by simplify_eq].
  right. split; [done|].
  destruct (comparePartialHashEx t s eh) as [same|]; simpl in H; [|done].
  exists same. split; [done|].
  destruct same; [|left; by simplify_eq].
  right. split; [done|].
  destruct (getRedirectInfo t s) as [i|]; simpl in H; [|done].
  by exists i.
Qed.

(** The scan for the bucket of the last entry stops at or before the bucket
    where the probe for the last entry's key finds a duplicate. *)
Lemma find_last_spot_finds fuel : forall t ph eh k s loc,
  probe fuel t ph eh k s = Some (inr loc) ->
  getRedirectInfo t loc = Some (sizeZ (arr t) - 1) ->
  exists j, find_last_spot fuel t ph eh s = Some j /\
            is_Some (nthZ (redirectInfo t) j).
Proof.
  induction fuel as [|fuel IH]; intros t ph eh k s loc H Hlast; simpl in H; [done|].
  destruct (getLocationEmpty (fastHashInfo t) s) as [[]|] eqn:E; simpl in H; [done| |done].
  destruct (checkForDuplicate t s ph eh k) as [d|] eqn:E2; simpl in H; [|done].
  simpl.
  destruct (checkForDuplicate_reads _ _ _ _ _ _ E2) as (c & Hc & Hcase).
  rewrite Hc. simpl.
  destruct Hcase as [[Hne ->]|(Heq & same & Hsame & Hcase)].
  - rewrite Hne. simpl. by eapply IH.
  - rewrite Heq, Hsame. simpl.
    destruct Hcase as [[-> ->]|(-> & i & Hi)].
    + simpl. by eapply IH.
    + rewrite Hi. simpl.
      destruct (i =? sizeZ (arr t) - 1) eqn:Ei.
      * exists s. split; [done|]. unfold getRedirectInfo in Hi.
        destruct (nthZ (redirectInfo t) s); [by eexists|done].
      * destruct d.
        -- assert (s = loc) as -> by congruence.
           rewrite Hlast in Hi. assert (i = sizeZ (arr t) - 1) as -> by congruence.
           by rewrite Z.eqb_refl in Ei.
        -- by eapply IH.
Qed.


Lemma mod_wrap x B : 0 < B -> B <= x < 2 * B -> x mod B = x - B.
Proof.
  intros HB Hx. symmetry. apply (Z.mod_unique x B 1 (x - B)); lia.
Qed.

Lemma mod_wrap_neg x B : 0 < B -> - B <= x < 0 -> x mod B = x + B.
Proof.
  intros HB Hx. symmetry. apply (Z.mod_unique x B (-1) (x + B)); lia.
Qed.

Lemma probe_loc_range fuel : forall t ph eh k s r,
  0 < sizeZ (fastHashInfo t) -> 0 <= s < sizeZ (fastHashInfo t) ->
  probe fuel t ph eh k s = Some r ->
  0 <= match r with inl loc => loc | inr loc => loc end < sizeZ (fastHashInfo t).
Proof.
  induction fuel as [|fuel IH]; intros t ph eh k s r HB Hs H; simpl in H; [done|].
  destruct (getLocationEmpty (fastHashInfo t) s) as [[]|]; simpl in H; [by simplify_eq| |done].
  destruct (checkForDuplicate t s ph eh k) as [[]|]; simpl in H; [by simplify_eq| |done].
  eapply IH; [done| |done]. by apply Z.mod_pos_bound.
Qed.

(** The backward shift stops at the latest at the next empty bucket, as
    long as that bucket is not the one it started from. *)
Lemma shift_back_stops (d : nat) : forall fuel t prev cur,
  (d < fuel)%nat ->
  length (redirectInfo t) = length (fastHashInfo t) ->
  0 <= cur < sizeZ (fastHashInfo t) -> 0 <= prev < sizeZ (fastHashInfo t) ->
  Z.of_nat d < sizeZ (fastHashInfo t) ->
  (forall i, 0 <= i <= Z.of_nat d -> (cur + i) mod sizeZ (fastHashInfo t) <> prev) ->
  nthZ (fastHashInfo t) ((cur + Z.of_nat d) mod sizeZ (fastHashInfo t)) = Some 0 ->
  exists t', shift_back fuel t prev cur = Some t'.
Proof.
  induction d as [|d IH]; intros fuel t prev cur Hf Hlen Hcur Hprev Hd Hne Hz;
    (destruct fuel as [|fuel]; [lia|]); simpl.
  - rewrite Z.add_0_r, Z.mod_small in Hz by done.
    unfold getLocationEmpty. rewrite Hz. simpl. by eexists.
  - destruct (nthZ_is_Some (fastHashInfo t) cur Hcur) as [c Hc].
    unfold getLocationEmpty. rewrite Hc. simpl.
    destruct (c =? 0); [by eexists|].
    assert (0 <= cur < sizeZ (redirectInfo t)) as Hcur' by (unfold sizeZ in *; lia).
    destruct (nthZ_is_Some (redirectInfo t) cur Hcur') as [r Hr].
    unfold getDistanceFromDesiredSpot, getPartialHashEx. rewrite Hr. simpl.
    destruct (0 <? _); [|by eexists].
    set (B := sizeZ (fastHashInfo t)) in *.
    assert (0 < B) as HB by lia.
    apply IH; cbn [fastHashInfo redirectInfo]; rewrite ?length_setZ, ?sizeZ_setZ; fold B.
    + lia.
    + done.
    + by apply Z.mod_pos_bound.
    + done.
    + lia.
    + intros i Hi. rewrite Zplus_mod_idemp_l.
      destruct (Z_lt_le_dec (cur + 1 + i) B).
      * rewrite Z.mod_small by lia. lia.
      * rewrite mod_wrap by lia. lia.
    + rewrite Zplus_mod_idemp_l.
      replace (cur + 1 + Z.of_nat d) with (cur + Z.of_nat (S d)) by lia.
      rewrite nthZ_setZ_ne; [done|lia| |].
      * apply Z.mod_pos_bound. lia.
      * intros Heq. apply (Hne (Z.of_nat (S d))); [lia|done].
Qed.

Lemma swapAndDelete_last {A} (l : list A) (x : A) :
  swapAndDelete (l ++ [x]) (sizeZ l) = Some l.
Proof.
  unfold swapAndDelete, nthZ, setZ, sizeZ. rewrite last_snoc, Nat2Z.id. simpl.
  rewrite list_lookup_middle by done. simpl.
  rewrite length_app. simpl.
  rewrite take_insert_ge by lia.
  f_equal. apply take_app_length'. lia.
Qed.

Lemma getKeyStorage_same_key (l : KVStorageType) (v : KeyValueType) (k : Key) :
  Forall (fun x => getKey x = k) (v :: l) -> getKeyStorage (v :: l) = Some k.
Proof.
  intros Hall. unfold getKeyStorage.
  destruct (last (v :: l)) as [x|] eqn:Hl.
  - simpl. f_equal. apply last_Some_elem_of in Hl.
    by apply (proj1 (Forall_forall _ _) Hall).
  - by apply last_None in Hl.
Qed.


Lemma allocateIfEmpty_keys t : extraKeyStorage (allocateIfEmpty t) = extraKeyStorage t.
Proof. unfold allocateIfEmpty. by destruct (_ =? _). Qed.

Lemma toRedirect_small x : 0 <= x < 2 ^ 32 -> toRedirect x = x.
Proof.
  intros Hx. unfold toRedirect, RedirectBits. apply Z.mod_small.
  destruct BIG; [change (2 ^ 64) with 18446744073709551616|];
    change (2 ^ 32) with 4294967296 in *; lia.
Qed.

End Multi.

Section MultiExamples.
#[local] Existing Instance u64_multi.

(** C7 on scenario S2: key 1 is inserted three times into a default multi
    table and then erased.  The insertions do what the claim says: the size
    is 3 and the three entries sit in one sequence, in order.  [erase(1)]
    finds the bucket and calls [remove], which evaluates [it == end()];
    [end()] builds [Iterator(this, arr.size(), true)] with [arr.size()] = 1,
    and the multi constructor, testing [index < ptr->size()] against the
    element count 3, reads [arr[1].begin()] past the one element of [arr].
    The construction, and with it [erase], is undefined. *)
Theorem multi_erase_reads_past_arr :
  let t := after [insM 1 "a"; insM 1 "b"; insM 1 "c"] in
  size t = 3 /\ arr t = [[(1, "a"); (1, "b"); (1, "c")]]%string /\
  find t 1 = Ret (mkIt false 0 (Some 0%nat) 0 1) t /\
  end_ t = None /\
  erase t 1 = Undefined.
Proof.
  intros t.
  assert ((size t, (arr t, (find t 1, (end_ t, erase t 1))))
          = (3, ([[(1, "a"); (1, "b"); (1, "c")]]%string,
                 (Ret (mkIt false 0 (Some 0%nat) 0 1) t, (None, Undefined)))))
    as H by vm_decide.
  clearbody t.
  apply pair_eq_inv in H as [H1 H]. apply pair_eq_inv in H as [H2 H].
  apply pair_eq_inv in H as [H3 H]. apply pair_eq_inv in H as [H4 H5].
  exact (conj H1 (conj H2 (conj H3 (conj H4 H5)))).
Qed.

End MultiExamples.

(** ** What the operations keep, and round trips *)

Section Properties.
Context {P : TableParams}.

Lemma remove_no_throw t it deleteAll w t' : remove t it deleteAll <> Throw w t'.
Proof.
  unfold remove, remove_bucket, removeFromList, find.
  repeat case_match; try done; try apply returnIt_no_throw.
Qed.

(** [find] only reads: whatever it returns, the table is the one it was
    given, and it never throws. *)
Theorem find_leaves_table_unchanged (t : SimpleHashTable) (k : Key) :
  (forall it t', find t k = Ret it t' -> t' = t) /\
  (forall w t', find t k <> Throw w t').
Proof.
  split; [intros it t'; apply search_state|intros w t'; apply search_no_throw].
Qed.




(** The control byte written for a key always has [VALID_BIT] set: it is a
    byte between 128 and 255, so a filled bucket never reads as empty. *)
Theorem extractPartialHash_valid (hash : Z) :
  128 <= extractPartialHash hash < 256 /\
  Z.testbit (extractPartialHash hash) 7 = true /\
  getLocationEmpty [extractPartialHash hash] 0 = Some false.
Proof.
  assert (Z.testbit (extractPartialHash hash) 7 = true) as Hbit.
  { unfold extractPartialHash, wrap8, VALID_BIT.
    rewrite Z.mod_pow2_bits_low by lia. rewrite Z.lor_spec.
    apply orb_true_iff. right. reflexivity. }
  assert (0 <= extractPartialHash hash < 256) as Hr.
  { unfold extractPartialHash, wrap8. apply Z.mod_pos_bound. lia. }
  assert (128 <= extractPartialHash hash) as Hlo.
  { destruct (Z_lt_le_dec (extractPartialHash hash) 128) as [Hlt|]; [|done].
    rewrite (Z.bits_above_log2 (extractPartialHash hash) 7) in Hbit; [done|lia|].
    destruct (Z.eq_dec (extractPartialHash hash) 0) as [->|Hne]; [simpl; lia|].
    apply Z.log2_lt_pow2; lia. }
  split; [lia|]. split; [done|].
  unfold getLocationEmpty. simpl. f_equal. apply Z.eqb_neq. lia.
Qed.

(** On a multi table that holds some key more than once there are fewer
    sequences in [arr] than elements, and [end()] reads [arr[arr.size()]]:
    [end()], every [erase] by key and every [remove] are undefined as long
    as the table is not empty. *)
Theorem multi_end_reads_past_arr (t : SimpleHashTable) :
  MULTI = true -> sizeZ (arr t) < size t ->
  end_ t = None /\
  (arr t <> [] ->
   (forall k, erase t k = Undefined) /\
   (forall it deleteAll, remove t it deleteAll = Undefined)).
Proof.
  intros HM Hlt.
  assert (end_ t = None) as He.
  { unfold end_, newIterator. rewrite HM.
    destruct (sizeZ (arr t) <? size t) eqn:E; [|apply Z.ltb_ge in E; lia].
    unfold nthZ, sizeZ. rewrite Nat2Z.id.
    by rewrite (lookup_ge_None_2 (arr t) (length (arr t))) by lia. }
  split; [done|]. intros Hne.
  assert ((sizeZ (arr t) =? 0) = false) as Hnz.
  { apply Z.eqb_neq. intros Hz. by apply sizeZ_zero_nil in Hz. }
  assert (forall it deleteAll, remove t it deleteAll = Undefined) as Hrem.
  { intros it d. unfold remove. by rewrite Hnz, He. }
  split; [|done]. intros k. unfold erase.
  destruct (find t k) as [it0 t0|w0 t0|] eqn:E; [| |done].
  - apply search_state in E as ->. apply Hrem.
  - by apply search_no_throw in E.
Qed.


(** After [clear] or [fastClear] the table counts no element and every
    [find] returns [end()]; [clear] gives the buckets up, [fastClear] keeps
    their number and empties each one.  Both advance the rehash counter,
    which invalidates the bucket index of outstanding iterators. *)
Theorem clear_empties (t : SimpleHashTable) (k : Key) :
  let rc := wrap64 (rehashCounter t + 1) in
  let e := mkIt true 0 None rc NO_BUCKET in
  (size (clear t) = 0 /\ getTotalBuckets (clear t) = 0 /\
   rehashCounter (clear t) = rc /\ find (clear t) k = Ret e (clear t)) /\
  (size (fastClear t) = 0 /\ getTotalBuckets (fastClear t) = getTotalBuckets t /\
   rehashCounter (fastClear t) = rc /\ find (fastClear t) k = Ret e (fastClear t) /\
   forall b, 0 <= b < getTotalBuckets t ->
     getLocationEmpty (fastHashInfo (fastClear t)) b = Some true).
Proof.
  intros rc e.
  assert (forall u, arr u = [] -> size u = 0 -> rehashCounter u = rc ->
                    find u k = Ret e u) as Hfind.
  { intros u Ha Hs Hr. unfold find, search, end_, newIterator. rewrite Ha, Hs, Hr.
    change (sizeZ []) with 0. cbn [Z.eqb Z.ltb Z.compare returnIt].
    by destruct MULTI. }
  split.
  - split; [done|]. split; [done|]. split; [done|]. by apply Hfind.
  - split; [done|]. split.
    { unfold getTotalBuckets, fastClear. cbn [fastHashInfo].
      by rewrite sizeZ_replicate. }
    split; [done|]. split; [by apply Hfind|].
    intros b Hb. unfold getLocationEmpty, nthZ, fastClear. cbn [fastHashInfo].
    rewrite lookup_replicate_2; [done|]. unfold getTotalBuckets, sizeZ in Hb. lia.
Qed.

(** The two control arrays have one length, and on a multi table the
    shadow keys are as many as the sequences of [arr]. *)
Definition aligned (t : SimpleHashTable) : Prop :=
  length (redirectInfo t) = length (fastHashInfo t) /\
  (MULTI = true -> length (extraKeyStorage t) = length (arr t)).

Lemma allocateIfEmpty_aligned t : aligned t -> aligned (allocateIfEmpty t).
Proof.
  unfold allocateIfEmpty. destruct (_ =? _); [|done].
  intros [_ H]. split; [|done]. cbn [redirectInfo fastHashInfo].
  by rewrite !length_replicate.
Qed.

Lemma emplace_aligned t v t' :
  state_of (emplace t v) = Some t' -> aligned t -> aligned t'.
Proof.
  intros H Hal. apply allocateIfEmpty_aligned in Hal. unfold emplace in H.
  set (ta := allocateIfEmpty t) in *. destruct Hal as [Hl Hk].
  destruct (checkIfOverflowPossible ta); [by simplify_eq/=|].
  destruct (probe _ _ _ _ _ _) as [[loc|loc]|]; [| |done].
  - destruct (newIterator _ _ _) as [it0|]; [|done].
    assert (MULTI = true ->
            length (if MULTI then extraKeyStorage ta ++ [getKey v]
                    else extraKeyStorage ta) = length (arr ta ++ [[v]])) as Hk2.
    { intros HM. rewrite HM, !length_app, (Hk HM). done. }
    destruct (overMaxLoad _).
    + destruct (rebalance _) as [t3|] eqn:E; [|done]. simpl in H. simplify_eq.
      apply rebalance_frame in E as (_ & E1 & E2 & E3 & _).
      split; cbn [redirectInfo fastHashInfo extraKeyStorage arr]; [done|].
      rewrite E2, E3. done.
    + simpl in H. simplify_eq.
      split; cbn [redirectInfo fastHashInfo extraKeyStorage arr attemptToAdd].
      * by rewrite !length_setZ.
      * done.
  - unfold appendMultimap in H.
    destruct (getRedirectInfo ta loc) as [i|]; [|done].
    destruct MULTI eqn:HM.
    + destruct (nthZ (arr ta) i) as [l|]; [|done]. simpl in H. simplify_eq.
      split; cbn [redirectInfo fastHashInfo extraKeyStorage arr]; [done|].
      intros _. by rewrite length_setZ, Hk.
    + apply returnIt_state in H as ->. split; [done|]. by rewrite HM.
Qed.

Lemma remove_bucket_aligned t it newIT n it' t' :
  remove_bucket t it newIT n = Ret it' t' -> aligned t -> aligned t'.
Proof.
  unfold remove_bucket. intros H [Hl Hk].
  match type of H with match ?d with _ => _ end = _ => destruct d as [t1|] eqn:E end;
    [|done].
  assert (t1 = t') as ->
    by (destruct (all newIT); apply returnIt_Ret in H; by destruct H).
  clear H. inv_bind E. simplify_eq.
  match goal with Hs : shift_back _ _ _ _ = Some _ |- _ =>
    apply shift_back_frame in Hs; simpl in Hs;
    destruct Hs as (Ea & Eb & Ec & Ed & Ee & Ef) end.
  rewrite !length_setZ in *.
  split; cbn [redirectInfo fastHashInfo extraKeyStorage arr]; [congruence|].
  intros HM. rewrite Ec, Ed.
  match goal with Hs : swapAndDelete (arr t) _ = Some _ |- _ =>
    apply swapAndDelete_length in Hs as Hs1 end.
  match goal with Hs : (if MULTI then _ else _) = Some _ |- _ =>
    rewrite HM in Hs; apply swapAndDelete_length in Hs as Hs2 end.
  specialize (Hk HM). unfold sizeZ in *. lia.
Qed.

Lemma removeFromList_aligned t it it' t' :
  removeFromList t it = Ret it' t' -> aligned t -> aligned t'.
Proof.
  unfold removeFromList. intros H Hal.
  destruct MULTI eqn:HM; [|apply returnIt_Ret in H as [_ ->]; exact Hal].
  destruct Hal as [Hl Hk].
  destruct (nthZ (arr t) (index it)) as [l|]; [|done].
  destruct (listIterator it) as [pos|]; [|done].
  destruct (pos <? length l)%nat; [|done].
  destruct (pos =? _)%nat; [apply returnIt_Ret in H as [_ ->]|simplify_eq];
    (split; cbn [redirectInfo fastHashInfo extraKeyStorage arr]; [done|];
     intros HM'; by rewrite length_setZ, (Hk HM')).
Qed.


Lemma remove_aligned t it deleteAll t' :
  state_of (remove t it deleteAll) = Some t' -> aligned t -> aligned t'.
Proof.
  intros H Hal.
  destruct (remove t it deleteAll) as [it' t1|w t1|] eqn:E; simpl in H; [| |done];
    simplify_eq; [|by apply remove_no_throw in E].
  revert E. unfold remove.
  destruct (sizeZ (arr t) =? 0); [intros E; by apply returnIt_Ret in E as [_ ->]|].
  destruct (end_ t) as [e|]; [|done].
  destruct (it_eqb it e); [intros; by simplify_eq|].
  destruct (elementsAtLocation t (index it)) as [n|]; [|done].
  destruct (negb deleteAll && (1 <? n)).
  { intros E. apply removeFromList_aligned in E; [done|]. by destruct Hal. }
  destruct (negb _ || _).
  - destruct (it_key t it) as [k|]; [|done].
    destruct (find t k) as [found tf| |]; try done.
    destruct (it_eqb _ _); [intros; by simplify_eq|].
    intros E. by eapply remove_bucket_aligned.
  - intros E. by eapply remove_bucket_aligned.
Qed.

(** Every table a client can hold has its arrays aligned. *)
Lemma reachable_aligned t : reachable t -> aligned t.
Proof.
  induction 1 as [|n Hn|t v t' _ IH H|t k t' _ IH H|t it a t' _ IH H
                 |t t' _ IH H|t _ IH|t _ IH].
  - by split.
  - split; [|done]. unfold new_table. cbn [redirectInfo fastHashInfo].
    by rewrite !length_replicate.
  - by eapply emplace_aligned.
  - unfold erase in H. destruct (find t k) as [it0 t0|w0 t0|] eqn:E; [| |done].
    + apply search_state in E as ->. by eapply remove_aligned.
    + by apply search_no_throw in E.
  - by eapply remove_aligned.
  - unfold forceRehash in H. destruct (rebalance t) as [t1|] eqn:E; [|done].
    simpl in H. simplify_eq. apply rebalance_frame in E as (_ & E1 & E2 & E3 & _).
    destruct IH as [_ IH]. split; [done|]. by rewrite E2, E3.
  - by split.
  - destruct IH as [IH _]. split; [|done]. unfold fastClear.
    cbn [redirectInfo fastHashInfo]. by rewrite !length_replicate.
Qed.

(** Once the free bucket found by the probe has been filled with the entry
    appended to [arr], the same probe stops there with a duplicate: the
    earlier buckets of the path compare as they did, the new one holds the
    key. *)
Lemma probe_after_emplace fuel : forall t t2 ph eh v s loc,
  keyEqualFunc (getKey v) (getKey v) = true -> ph <> 0 ->
  fastHashInfo t2 = setZ (fastHashInfo t) loc ph ->
  redirectInfo t2 = setZ (redirectInfo t) loc (eh, sizeZ (arr t)) ->
  arr t2 = arr t ++ [[v]] ->
  extraKeyStorage t2 =
    (if MULTI then extraKeyStorage t ++ [getKey v] else extraKeyStorage t) ->
  (MULTI = true -> length (extraKeyStorage t) = length (arr t)) ->
  is_Some (nthZ (redirectInfo t) loc) ->
  probe fuel t ph eh (getKey v) s = Some (inl loc) ->
  probe fuel t2 ph eh (getKey v) s = Some (inr loc).
Proof.
  induction fuel as [|fuel IH];
    intros t t2 ph eh v s loc Hkk Hph H1 H2 H3 H4 Hlen Hr H; simpl in H; [done|].
  pose proof (probe_inl_empty _ _ _ _ _ _ _
                (H : probe (S fuel) t ph eh (getKey v) s = _)) as Hempty.
  assert (nthZ (fastHashInfo t) loc = Some 0) as Hloc0.
  { unfold getLocationEmpty in Hempty.
    destruct (nthZ (fastHashInfo t) loc) as [c|]; [|done].
    simpl in Hempty. simplify_eq. f_equal. by apply Z.eqb_eq. }
  assert (nthZ (fastHashInfo t2) loc = Some ph) as Hloc2.
  { rewrite H1. unfold nthZ, setZ in *. apply list_lookup_insert_eq.
    by apply lookup_lt_Some in Hloc0. }
  assert (nthZ (redirectInfo t2) loc = Some (eh, sizeZ (arr t))) as Hred2.
  { rewrite H2. destruct Hr as [r Hr]. unfold nthZ, setZ in *.
    apply list_lookup_insert_eq. by apply lookup_lt_Some in Hr. }
  simpl.
  destruct (getLocationEmpty (fastHashInfo t) s) as [[]|] eqn:E; simpl in H; [| |done].
  - simplify_eq. unfold getLocationEmpty. rewrite Hloc2. simpl.
    destruct (ph =? 0) eqn:E0; [apply Z.eqb_eq in E0; done|].
    unfold checkForDuplicate, getPartialHash, comparePartialHashEx, getPartialHashEx,
      getRedirectInfo.
    rewrite Hloc2, Hred2. simpl. rewrite Z.eqb_refl.
    assert ((if key_is_arithmetic then Some true
             else Some (eh =? eh)) = Some true) as ->.
    { destruct key_is_arithmetic; [done|]. by rewrite Z.eqb_refl. }
    rewrite H3, H4. destruct MULTI.
    + unfold nthZ, sizeZ. rewrite Nat2Z.id.
      rewrite <- (Hlen eq_refl), list_lookup_middle by done. simpl. by rewrite Hkk.
    + unfold nthZ, sizeZ. rewrite Nat2Z.id, list_lookup_middle by done.
      simpl. by rewrite Hkk.
  - destruct (checkForDuplicate t s ph eh (getKey v)) as [[]|] eqn:E2; simpl in H;
      [done| |done].
    assert (Z.to_nat s <> Z.to_nat loc) as Hne.
    { intros Heq. unfold getLocationEmpty, nthZ in *. rewrite Heq, Hloc0 in E.
      simpl in E. done. }
    assert (nthZ (fastHashInfo t2) s = nthZ (fastHashInfo t) s) as Hs1.
    { rewrite H1. unfold nthZ, setZ. by apply list_lookup_insert_ne. }
    assert (nthZ (redirectInfo t2) s = nthZ (redirectInfo t) s) as Hs2.
    { rewrite H2. unfold nthZ, setZ. by apply list_lookup_insert_ne. }
    assert (getLocationEmpty (fastHashInfo t2) s = Some false) as ->.
    { unfold getLocationEmpty in *. by rewrite Hs1. }
    simpl.
    assert (checkForDuplicate t2 s ph eh (getKey v) = Some false) as ->.
    { revert E2. unfold checkForDuplicate, getPartialHash, comparePartialHashEx,
        getPartialHashEx, getRedirectInfo. rewrite Hs1, Hs2.
      destruct (nthZ (fastHashInfo t) s) as [c|]; simpl; [|done].
      destruct (c =? ph); [|done].
      destruct (if key_is_arithmetic then _ else _) as [[]|]; simpl; [|done|done].
      destruct (nthZ (redirectInfo t) s) as [r|]; simpl; [|done].
      rewrite H3, H4. destruct MULTI.
      - destruct (nthZ (extraKeyStorage t) r.2) as [k'|] eqn:Ek; simpl; [|done].
        by rewrite (nthZ_app_l _ _ _ _ Ek).
      - destruct (nthZ (arr t) r.2) as [l|] eqn:El; simpl; [|done].
        by rewrite (nthZ_app_l _ _ _ _ El). }
    simpl.
    assert (sizeZ (fastHashInfo t2) = sizeZ (fastHashInfo t)) as ->.
    { by rewrite H1, sizeZ_setZ. }
    by eapply IH.
Qed.

(** What a returning [emplace] that added a bucket without rebuilding the
    table leaves behind, for the probe of its own key. *)
Lemma emplace_then_probe t v it t' :
  keyEqualFunc (getKey v) (getKey v) = true ->
  emplace t v = Ret it t' ->
  arr t' = arr t ++ [[v]] -> rehashCounter t' = rehashCounter t ->
  (MULTI = true -> length (extraKeyStorage t) = length (arr t)) ->
  length (redirectInfo t') = length (fastHashInfo t') ->
  sizeZ (arr t) + 1 < UINT_MAX - 1 ->
  let h := wrap64 (hasher (getKey v)) in
  let loc := bucketIndex it in
  probe (length (fastHashInfo t')) t' (extractPartialHash h) (extractPartialHashEx h)
        (getKey v) (h mod sizeZ (fastHashInfo t')) = Some (inr loc) /\
  getRedirectInfo t' loc = Some (sizeZ (arr t)) /\
  0 <= loc < sizeZ (fastHashInfo t') /\
  checkIfOverflowPossible t' = false /\
  totalElements t' = wrap64 (totalElements t + 1) /\
  extraKeyStorage t' =
    (if MULTI then extraKeyStorage t ++ [getKey v] else extraKeyStorage t) /\
  index it = sizeZ (arr t) /\ all it = false /\
  itRehashCounter it = rehashCounter t.
Proof.
  intros Hkk Hemp Harr Hrc Hklen HlenR Hov h loc0.
  destruct (emplace_new_bucket _ _ _ _ Hemp Harr Hrc)
    as (loc & Hprobe & Hguard & HF & HR & HK & Htot & Hit).
  assert (loc0 = loc) as -> by (unfold loc0; by subst it).
  fold h in Hprobe, HF, HR.
  set (ta := allocateIfEmpty t) in *.
  set (i := sizeZ (arr t)) in *.
  pose proof (sizeZ_nonneg (arr t)) as Hi0. fold i in Hi0.
  unfold UINT_MAX in Hov.
  rewrite (toRedirect_small i) in HR by (change (2 ^ 32) with 4294967296; lia).
  assert (sizeZ (fastHashInfo t') = sizeZ (fastHashInfo ta)) as HsF
    by (by rewrite HF, sizeZ_setZ).
  assert (length (fastHashInfo t') = length (fastHashInfo ta)) as HlF
    by (by rewrite HF, length_setZ).
  assert (0 < sizeZ (fastHashInfo ta)) as HB.
  { pose proof (sizeZ_nonneg (fastHashInfo t)).
    destruct (allocateIfEmpty_buckets t) as [[_ E]|[E1 E2]]; unfold ta; [lia|].
    rewrite E2. lia. }
  assert (0 <= loc < sizeZ (fastHashInfo ta)) as Hloc.
  { apply (probe_loc_range _ _ _ _ _ _ (inl loc) HB) in Hprobe; [done|].
    by apply Z.mod_pos_bound. }
  assert (0 <= loc < sizeZ (redirectInfo ta)) as HlocR.
  { rewrite HR, length_setZ in HlenR. unfold sizeZ in *. lia. }
  split.
  { rewrite HlF, HsF.
    apply (probe_after_emplace _ ta t' _ _ v _ loc); try done.
    - apply extractPartialHash_nonzero.
    - unfold ta. by rewrite allocateIfEmpty_arr.
    - unfold ta. by rewrite allocateIfEmpty_arr.
    - unfold ta. by rewrite allocateIfEmpty_keys.
    - unfold ta. by rewrite allocateIfEmpty_keys, allocateIfEmpty_arr.
    - by apply nthZ_is_Some. }
  split.
  { unfold getRedirectInfo. rewrite HR, nthZ_setZ_eq; [done|lia]. }
  split; [lia|]. split.
  { unfold checkIfOverflowPossible. destruct BIG; [done|].
    apply Z.eqb_neq. rewrite Harr, sizeZ_app. fold i. unfold UINT_MAX, sizeZ.
    simpl. lia. }
  split; [done|]. split; [done|]. by subst it.
Qed.

(** Insert, then find: after an [emplace] that stored a new entry without
    rebuilding the table, [find] of the key returns an iterator to that
    entry, at the bucket [emplace] reported. *)
Theorem emplace_then_find (t : SimpleHashTable) (v : KeyValueType) (it : Iterator)
    (t' : SimpleHashTable) :
  reachable t ->
  keyEqualFunc (getKey v) (getKey v) = true ->
  emplace t v = Ret it t' ->
  arr t' = arr t ++ [[v]] -> rehashCounter t' = rehashCounter t ->
  sizeZ (arr t) + 1 < UINT_MAX - 1 ->
  exists it',
    find t' (getKey v) = Ret it' t' /\
    index it' = sizeZ (arr t) /\ bucketIndex it' = bucketIndex it /\
    all it' = false /\ nthZ (arr t') (index it') = Some [v].
Proof.
  intros Hreach Hkk Hemp Harr Hrc Hov.
  destruct (reachable_aligned t Hreach) as [_ Hklen].
  assert (aligned t') as [HlenR _].
  { apply (emplace_aligned t v); [by rewrite Hemp|by apply reachable_aligned]. }
  destruct (emplace_then_probe t v it t' Hkk Hemp Harr Hrc Hklen HlenR Hov)
    as (Hp & Hri & Hloc & _).
  pose proof (sizeZ_nonneg (arr t)) as Hi0.
  destruct (newIterator_in_range t' (sizeZ (arr t)) false) as [c Hc].
  { rewrite Harr, sizeZ_app. unfold sizeZ. simpl. lia. }
  eexists. split; [|split; [|split; [|split]]].
  - unfold find, search.
    assert ((sizeZ (arr t') =? 0) = false) as ->.
    { apply Z.eqb_neq. rewrite Harr, sizeZ_app. unfold sizeZ. simpl. lia. }
    assert ((sizeZ (fastHashInfo t') =? 0) = false) as -> by (apply Z.eqb_neq; lia).
    cbv zeta. rewrite Hp, Hri, Hc. reflexivity.
  - done.
  - done.
  - done.
  - cbn [index withBucket]. rewrite Harr. unfold nthZ, sizeZ.
    rewrite Nat2Z.id. by apply list_lookup_middle.
Qed.

(** Removing the bucket whose entry is the last one of [arr] pops that
    entry (and, on a multi table, its shadow key) and moves nothing else in
    the dense arrays; the backward shift stops because some other bucket
    is empty. *)
Lemma remove_bucket_pops_last t it n a l ks k e :
  arr t = a ++ [l] ->
  (if MULTI then swapAndDelete (extraKeyStorage t) (sizeZ a)
   else Some (extraKeyStorage t)) = Some ks ->
  getKeyStorage l = Some k ->
  index it = sizeZ a -> all it = false ->
  (let h := wrap64 (hasher k) in
   probe (length (fastHashInfo t)) t (extractPartialHash h) (extractPartialHashEx h)
         k (h mod sizeZ (fastHashInfo t)) = Some (inr (bucketIndex it))) ->
  getRedirectInfo t (bucketIndex it) = Some (sizeZ a) ->
  length (redirectInfo t) = length (fastHashInfo t) ->
  0 <= e -> e <> bucketIndex it -> nthZ (fastHashInfo t) e = Some 0 ->
  exists t',
    remove_bucket t it it n = returnIt (end_ t') t' /\
    arr t' = a /\ extraKeyStorage t' = ks /\
    totalElements t' = wrap64 (totalElements t - n) /\
    rehashCounter t' = rehashCounter t /\
    length (fastHashInfo t') = length (fastHashInfo t) /\
    length (redirectInfo t') = length (redirectInfo t).
Proof.
  intros Harr Hkeys Hkey Hidx Hall Hprobe Hred HlenR He0 Hne Hempty.
  set (loc := bucketIndex it) in *.
  set (B := sizeZ (fastHashInfo t)) in *.
  assert (e < B) as HeB by (by eapply nthZ_lt).
  assert (0 < B) as HB by lia.
  assert (0 <= loc < B) as Hloc.
  { apply (probe_loc_range _ _ _ _ _ _ (inr loc) HB) in Hprobe; [done|].
    by apply Z.mod_pos_bound. }
  destruct (nthZ_is_Some (fastHashInfo t) loc Hloc) as [c Hc].
  unfold getRedirectInfo in Hred. apply fmap_Some in Hred as ([eh i] & Hr & Hi).
  simpl in Hi. subst i.
  destruct (find_last_spot_finds _ _ _ _ _ _ _ Hprobe) as (j & Hj & [to Hto]).
  { unfold getRedirectInfo. rewrite Hr, Harr, sizeZ_app. simpl. f_equal.
    unfold sizeZ. simpl. lia. }
  set (t1 := mkTable (setZ (fastHashInfo t) loc 0)
                     (setZ (redirectInfo t) j (fst to, sizeZ a))
                     a ks (totalElements t) (rehashCounter t)).
  destruct (shift_back_stops (Z.to_nat ((e - loc - 1) mod B))
              (length (fastHashInfo t)) t1 loc ((loc + 1) mod B)) as [t2 Ht2];
    subst t1; cbn [fastHashInfo redirectInfo]; rewrite ?length_setZ, ?sizeZ_setZ;
    fold B.
  - pose proof (Z.mod_pos_bound (e - loc - 1) B HB). unfold B, sizeZ in *. lia.
  - done.
  - by apply Z.mod_pos_bound.
  - done.
  - pose proof (Z.mod_pos_bound (e - loc - 1) B HB). lia.
  - intros i Hi. rewrite Zplus_mod_idemp_l.
    assert ((e - loc - 1) mod B <= B - 2) as Hd.
    { destruct (Z_lt_le_dec e (loc + 1)).
      - rewrite mod_wrap_neg by lia. lia.
      - rewrite Z.mod_small by lia. lia. }
    rewrite Z2Nat.id in Hi by (pose proof (Z.mod_pos_bound (e - loc - 1) B HB); lia).
    destruct (Z_lt_le_dec (loc + 1 + i) B).
    + rewrite Z.mod_small by lia. lia.
    + rewrite mod_wrap by lia. lia.
  - rewrite Z2Nat.id by (pose proof (Z.mod_pos_bound (e - loc - 1) B HB); lia).
    rewrite Zplus_mod_idemp_l, Zplus_mod_idemp_r.
    replace (loc + 1 + (e - loc - 1)) with e by lia.
    rewrite Z.mod_small by lia.
    by rewrite nthZ_setZ_ne by lia.
  - apply shift_back_frame in Ht2 as Hfr. cbn [fastHashInfo redirectInfo arr
      extraKeyStorage totalElements rehashCounter] in Hfr.
    rewrite !length_setZ in Hfr.
    destruct Hfr as (HF2 & HR2 & Ha2 & Hk2 & Htot2 & Hrc2).
    exists (mkTable (fastHashInfo t2) (redirectInfo t2) (arr t2) (extraKeyStorage t2)
                    (wrap64 (totalElements t2 - n)) (rehashCounter t2)).
    split; [|repeat split].
    + unfold remove_bucket. fold loc. unfold getPartialHash, getPartialHashEx.
      rewrite Hc, Hr, Harr, last_snoc. simpl. rewrite Hkey. simpl.
      rewrite <- Harr. fold B. rewrite Hj. simpl.
      rewrite Hidx, Harr, swapAndDelete_last. simpl.
      rewrite Hkeys. simpl.
      rewrite Hto. simpl. rewrite length_setZ, sizeZ_setZ. fold B.
      rewrite Ht2. simpl. rewrite Hall. reflexivity.
    + done.
    + done.
    + cbn [totalElements]. by rewrite Htot2.
    + done.
    + done.
    + done.
Qed.

(** Insert, then erase: after an [emplace] that stored a new entry without
    rebuilding the table, [erase] of the key returns [end()] and gives back
    the entry array, the shadow keys and the size as they were before the
    insertion.  On a multi table this needs [size()] not above
    [arr.size()] beforehand, so that [end()] is defined. *)
Theorem emplace_then_erase (t : SimpleHashTable) (v : KeyValueType) (it : Iterator)
    (t' : SimpleHashTable) (e : Z) :
  reachable t ->
  keyEqualFunc (getKey v) (getKey v) = true ->
  emplace t v = Ret it t' ->
  arr t' = arr t ++ [[v]] -> rehashCounter t' = rehashCounter t ->
  (MULTI = true -> size t <= sizeZ (arr t)) ->
  sizeZ (arr t) + 1 < UINT_MAX - 1 -> getTotalBuckets t' < 2 ^ 64 ->
  0 <= size t -> size t + 1 < 2 ^ 64 ->
  0 <= e -> e <> bucketIndex it -> nthZ (fastHashInfo t') e = Some 0 ->
  exists t'',
    erase t' (getKey v) =
      Ret (mkIt true (sizeZ (arr t)) None (rehashCounter t) NO_BUCKET) t'' /\
    arr t'' = arr t /\ extraKeyStorage t'' = extraKeyStorage t /\
    size t'' = size t /\ getTotalBuckets t'' = getTotalBuckets t' /\
    rehashCounter t'' = rehashCounter t.
Proof.
  intros Hreach Hkk Hemp Harr Hrc Hnodup Hov HB64 Hsz0 Hsz He0 Hne Hempty.
  destruct (reachable_aligned t Hreach) as [_ Hklen].
  assert (aligned t') as [HlenR _].
  { apply (emplace_aligned t v); [by rewrite Hemp|by apply reachable_aligned]. }
  assert (MULTI = true ->
          length (extraKeyStorage t) = length (arr t) /\ size t <= sizeZ (arr t))
    as Hmulti by (intros HM; split; [by apply Hklen|by apply Hnodup]).
  destruct (emplace_then_probe t v it t' Hkk Hemp Harr Hrc Hklen HlenR Hov)
    as (Hp & Hri & Hloc & Hguard & Htot & HK & Hidx & Hall & Hitrc).
  set (loc := bucketIndex it) in *. set (i := sizeZ (arr t)) in *.
  pose proof (sizeZ_nonneg (arr t)) as Hi0. fold i in Hi0.
  unfold size in *.
  assert (totalElements t' = totalElements t + 1) as Htot1.
  { rewrite Htot. unfold wrap64. apply Z.mod_small. lia. }
  assert (sizeZ (arr t') = i + 1) as Hsz'.
  { rewrite Harr, sizeZ_app. unfold i, sizeZ. simpl. lia. }
  destruct (newIterator_in_range t' i false) as [c Hc]; [lia|].
  set (it' := mkIt false i c (rehashCounter t') loc).
  assert (find t' (getKey v) = Ret it' t') as Hfind.
  { unfold find, search.
    assert ((sizeZ (arr t') =? 0) = false) as -> by (apply Z.eqb_neq; lia).
    assert ((sizeZ (fastHashInfo t') =? 0) = false) as -> by (apply Z.eqb_neq; lia).
    cbv zeta. rewrite Hp, Hri, Hc. reflexivity. }
  assert (end_ t' = Some (mkIt true (i + 1) None (rehashCounter t') NO_BUCKET)) as Hend.
  { unfold end_, newIterator. rewrite Hsz'. unfold size. rewrite Htot1.
    destruct MULTI eqn:HM; [|done].
    destruct (Hmulti eq_refl) as [_ Hle].
    destruct (i + 1 <? totalElements t + 1) eqn:E; [apply Z.ltb_lt in E; lia|done]. }
  assert (getKeyStorage [v] = Some (getKey v)) as Hks
    by (apply getKeyStorage_same_key; by constructor).
  destruct (remove_bucket_pops_last t' it' 1 (arr t) [v] (extraKeyStorage t)
              (getKey v) e) as (t'' & Hrem & Ha'' & Hk'' & Htot'' & Hrc'' & HlF & _);
    try done.
  { rewrite HK. destruct MULTI eqn:HM; [|done].
    replace (sizeZ (arr t)) with (sizeZ (extraKeyStorage t))
      by (unfold sizeZ; by rewrite (Hklen eq_refl)).
    apply swapAndDelete_last. }
  assert (end_ t'' = Some (mkIt true i None (rehashCounter t) NO_BUCKET)) as Hend''.
  { unfold end_, newIterator. rewrite Ha''. fold i. unfold size.
    rewrite Htot'', Htot1, Hrc'', Hrc.
    replace (totalElements t + 1 - 1) with (totalElements t) by lia.
    unfold wrap64. rewrite Z.mod_small by lia.
    destruct MULTI eqn:HM; [|done].
    destruct (Hmulti eq_refl) as [_ Hle].
    destruct (i <? totalElements t) eqn:E; [apply Z.ltb_lt in E; lia|done]. }
  exists t''. split; [|split; [done|split; [done|split; [|split; [|congruence]]]]].
  - unfold erase. rewrite Hfind. unfold remove.
    assert ((sizeZ (arr t') =? 0) = false) as -> by (apply Z.eqb_neq; lia).
    rewrite Hend.
    assert (it_eqb it' (mkIt true (i + 1) None (rehashCounter t') NO_BUCKET) = false)
      as ->.
    { unfold it_eqb, it'. cbn [index].
      assert ((i =? i + 1) = false) as -> by (apply Z.eqb_neq; lia).
      by destruct MULTI. }
    assert (elementsAtLocation t' (index it') = Some 1) as ->.
    { unfold elementsAtLocation, it'. cbn [index]. destruct MULTI; [|done].
      rewrite Harr. unfold nthZ, i, sizeZ. rewrite Nat2Z.id.
      by rewrite list_lookup_middle. }
    cbn [negb andb].
    assert ((itRehashCounter it' =? rehashCounter t') = true) as ->
      by apply Z.eqb_refl.
    assert ((bucketIndex it' =? NO_BUCKET) = false) as ->.
    { apply Z.eqb_neq. unfold it', NO_BUCKET, getTotalBuckets in *.
      cbn [bucketIndex]. change (2 ^ 64) with 18446744073709551616 in *. lia. }
    cbn [negb orb]. rewrite Hrem, Hend''. reflexivity.
  - rewrite Htot'', Htot1.
    replace (totalElements t + 1 - 1) with (totalElements t) by lia.
    unfold wrap64. apply Z.mod_small. lia.
  - unfold getTotalBuckets, sizeZ. by rewrite HlF.
Qed.

(** Inserting a key that is new to a multi table and then the same key
    again and again: as long as the first insertion does not rebuild the
    table, every entry is appended, in order, to the one sequence of that
    key at the end of [arr], and [size()] counts each of them. *)
Theorem multi_insert_appends (t : SimpleHashTable) (v : KeyValueType)
    (vs : list KeyValueType) (it1 : Iterator) (t1 : SimpleHashTable) :
  reachable t -> MULTI = true ->
  keyEqualFunc (getKey v) (getKey v) = true ->
  Forall (fun x => getKey x = getKey v) vs ->
  emplace t v = Ret it1 t1 ->
  arr t1 = arr t ++ [[v]] -> rehashCounter t1 = rehashCounter t ->
  sizeZ (arr t) + 1 < UINT_MAX - 1 ->
  0 <= size t -> size t + 1 + sizeZ vs < 2 ^ 64 ->
  exists tn,
    run t1 (Insert <$> vs) = Some tn /\
    size tn = size t + (1 + sizeZ vs) /\
    arr tn = arr t ++ [v :: vs] /\
    getTotalBuckets tn = getTotalBuckets t1 /\
    rehashCounter tn = rehashCounter t.
Proof.
  intros Hreach HM Hkk Hvs Hemp Harr Hrc Hov Hsz0 Hsz.
  destruct (reachable_aligned t Hreach) as [_ Hklen].
  assert (aligned t1) as [HlenR _].
  { apply (emplace_aligned t v); [by rewrite Hemp|by apply reachable_aligned]. }
  destruct (emplace_then_probe t v it1 t1 Hkk Hemp Harr Hrc Hklen HlenR Hov)
    as (Hp & Hri & Hloc & Hguard & Htot & _).
  set (loc := bucketIndex it1) in *. set (i := sizeZ (arr t)) in *.
  unfold size in *. pose proof (sizeZ_nonneg vs) as Hvs0.
  assert (totalElements t1 = totalElements t + 1) as Htot1.
  { rewrite Htot. unfold wrap64. apply Z.mod_small. lia. }
  assert (nthZ (arr t1) i = Some [v]) as Hai.
  { rewrite Harr. unfold nthZ, i, sizeZ. rewrite Nat2Z.id.
    by apply list_lookup_middle. }
  pose proof (run_appends vs t1 loc i [v] (getKey v) HM ltac:(lia) Hguard Hvs Hp
                Hri Hai) as Hrun.
  rewrite Htot1 in Hrun. specialize (Hrun ltac:(lia) ltac:(lia)).
  eexists. split; [exact Hrun|]. cbn [totalElements arr fastHashInfo rehashCounter].
  split; [lia|]. split; [|split; [done|done]].
  rewrite Harr. unfold setZ, i, sizeZ. rewrite Nat2Z.id.
  rewrite insert_app_r_alt by lia. by rewrite Nat.sub_diag.
Qed.

(** The ways [emplace] can return.  Either the key was found: [arr] keeps
    its length, nothing is rebuilt, and [size()] grows by one on a multi
    table only.  Or a new sequence [[v]] is appended to [arr] and [size()]
    grows by one; the table is then rebuilt exactly when the float load
    test fires, and the bucket count is the one [rebalance] computes. *)
Theorem emplace_outcomes (t : SimpleHashTable) (v : KeyValueType) (it : Iterator)
    (t' : SimpleHashTable) :
  emplace t v = Ret it t' ->
  let B := getTotalBuckets (allocateIfEmpty t) in
  (sizeZ (arr t') = sizeZ (arr t) /\ rehashCounter t' = rehashCounter t /\
   getTotalBuckets t' = B /\
   size t' = if MULTI then wrap64 (size t + 1) else size t) \/
  (arr t' = arr t ++ [[v]] /\ load_exceeds (sizeZ (arr t) + 1) B = false /\
   rehashCounter t' = rehashCounter t /\ getTotalBuckets t' = B /\
   size t' = wrap64 (size t + 1)) \/
  (arr t' = arr t ++ [[v]] /\ load_exceeds (sizeZ (arr t) + 1) B = true /\
   rehashCounter t' = wrap64 (rehashCounter t + 1) /\
   getTotalBuckets t' = rebalance_newSize (sizeZ (arr t) + 1) B /\
   size t' = wrap64 (size t + 1)).
Proof. intros H. exact (emplace_summary t v it t' H). Qed.

(** [forceRehash] keeps the entries, the shadow keys and [size()], advances
    the rehash counter by one, and leaves two control arrays of one length,
    at least 1024 buckets long; it never throws. *)
Theorem forceRehash_keeps_entries (t : SimpleHashTable) :
  (forall u t', forceRehash t = Ret u t' ->
     arr t' = arr t /\ extraKeyStorage t' = extraKeyStorage t /\
     size t' = size t /\ rehashCounter t' = wrap64 (rehashCounter t + 1) /\
     1024 <= getTotalBuckets t' /\
     length (redirectInfo t') = length (fastHashInfo t')) /\
  (forall w t', forceRehash t <> Throw w t').
Proof.
  unfold forceRehash. split.
  - intros u t' H. destruct (rebalance t) as [t1|] eqn:E; [|done]. simplify_eq.
    apply rebalance_frame in E as (E1 & E2 & E3 & E4 & E5 & E6).
    unfold getTotalBuckets, size. rewrite E1. repeat split; try done.
    apply rebalance_newSize_floor.
  - intros w t'. by destruct (rebalance t).
Qed.

End Properties.

Section PropertyExamples.
#[local] Existing Instance u64_multi.

(** The three insertions of scenario S2. *)
Lemma multi_insert_appends_S2 :
  let t1 := after [insM 1 "a"] in
  exists tn,
    run t1 (Insert <$> [(1, "b"); (1, "c")]%string) = Some tn /\
    size tn = size empty_table + (1 + sizeZ [(1, "b"); (1, "c")]%string) /\
    arr tn = arr empty_table ++ [[(1, "a"); (1, "b"); (1, "c")]]%string /\
    getTotalBuckets tn = getTotalBuckets t1 /\
    rehashCounter tn = rehashCounter empty_table.
Proof.
  intros t1.
  apply (multi_insert_appends empty_table
           ((1, "a"%string) : @KeyValueType u64_multi)
           [(1, "b"); (1, "c")]%string (mkIt false 0 None 0 1) t1).
  - apply reach_default.
  - reflexivity.
  - reflexivity.
  - repeat constructor.
  - vm_decide.
  - vm_decide.
  - vm_decide.
  - vm_decide.
  - vm_decide.
  - vm_decide.
Defined.

Lemma multi_end_reads_past_arr_S2 :
  let t := after [insM 1 "a"; insM 1 "b"; insM 1 "c"] in
  (MULTI = true /\ sizeZ (arr t) < size t) /\
  end_ t = None /\
  (arr t <> [] ->
   (forall k, erase t k = Undefined) /\
   (forall it deleteAll, remove t it deleteAll = Undefined)).
Proof.
  intros t.
  assert (MULTI = true /\ sizeZ (arr t) < size t) as H
    by (split; [reflexivity|vm_decide]).
  split; [exact H|]. destruct H as [H1 H2].
  exact (multi_end_reads_past_arr t H1 H2).
Defined.

Lemma emplace_then_find_witness :
  let t := empty_table in
  let v : KeyValueType := (1, "a"%string) in
  let t' := after [insM 1 "a"] in
  exists it',
    find t' 1 = Ret it' t' /\
    index it' = sizeZ (arr t) /\ bucketIndex it' = 1 /\
    all it' = false /\ nthZ (arr t') (index it') = Some [v].
Proof.
  intros t v t'.
  apply (emplace_then_find t v (mkIt false 0 None 0 1) t').
  - apply reach_default.
  - reflexivity.
  - vm_decide.
  - vm_decide.
  - vm_decide.
  - vm_decide.
Defined.

Lemma emplace_then_erase_witness :
  let t := empty_table in
  let v : KeyValueType := (1, "a"%string) in
  let t' := after [insM 1 "a"] in
  exists t'',
    erase t' 1 = Ret (mkIt true (sizeZ (arr t)) None (rehashCounter t) NO_BUCKET) t'' /\
    arr t'' = arr t /\ extraKeyStorage t'' = extraKeyStorage t /\
    size t'' = size t /\ getTotalBuckets t'' = getTotalBuckets t' /\
    rehashCounter t'' = rehashCounter t.
Proof.
  intros t v t'.
  apply (emplace_then_erase t v (mkIt false 0 None 0 1) t' 0).
  - apply reach_default.
  - reflexivity.
  - vm_decide.
  - vm_decide.
  - vm_decide.
  - intros _. vm_decide.
  - vm_decide.
  - vm_decide.
  - vm_decide.
  - vm_decide.
  - lia.
  - vm_decide.
  - vm_decide.
Defined.

End PropertyExamples.

Section PropertyExamplesSingle.
#[local] Existing Instance u64_single.

Lemma emplace_outcomes_witness :
  let t := after [ins1 1 "a"; ins1 2 "b"] in
  let v : KeyValueType := (3, "c"%string) in
  let t' := after [ins1 1 "a"; ins1 2 "b"; ins1 3 "c"] in
  emplace t v = Ret (mkIt false 2 None 0 3) t' /\
  arr t' = arr t ++ [[v]] /\ size t' = 3 /\ getTotalBuckets t' = 1024.
Proof.
  intros t v t'.
  assert (emplace t v = Ret (mkIt false 2 None 0 3) t') as H by vm_decide.
  assert (sizeZ (arr t') <> sizeZ (arr t)) as Hne by vm_decide.
  assert (getTotalBuckets t' = 1024) as HB by vm_decide.
  assert (size t' = 3) as Hs by vm_decide.
  split; [exact H|].
  destruct (emplace_outcomes t v _ t' H) as [(H1 & _)|[(H1 & _)|(H1 & _)]].
  - by destruct Hne.
  - exact (conj H1 (conj Hs HB)).
  - exact (conj H1 (conj Hs HB)).
Defined.

End PropertyExamplesSingle.

(** ** Walking the entries with an iterator *)

Section Iteration.
Context {P : TableParams}.

(** [operator++].  The single overload advances the index.  The multi
    overload compares the cursor with [ptr->arr[index].end()], steps it, and
    when the sequence is used up moves to the next sequence ([all]) or to
    [end()]; a cursor that was never set, or one beyond the sequence, cannot
    be compared or stepped.  Both forget the bucket index. *)
Definition increment (t : SimpleHashTable) (it : Iterator) : option Iterator :=
  if MULTI then
    l ← nthZ (arr t) (index it);
    pos ← listIterator it;
    if (length l <? pos)%nat then None
    else
      let stepped := if (pos =? length l)%nat then pos else S pos in
      if (stepped =? length l)%nat then
        if all it then
          let idx := wrap64 (index it + 1) in
          if idx <? sizeZ (arr t) then
            _ ← nthZ (arr t) idx;
            Some (mkIt true idx (Some 0%nat) (itRehashCounter it) NO_BUCKET)
          else e ← end_ t; Some (withBucket e NO_BUCKET)
        else e ← end_ t; Some (withBucket e NO_BUCKET)
      else Some (mkIt (all it) (index it) (Some stepped) (itRehashCounter it) NO_BUCKET)
  else Some (mkIt (all it) (wrap64 (index it + 1)) (listIterator it)
                  (itRehashCounter it) NO_BUCKET).

(** [operator*]: [ptr->arr[index]] for the single variants, the element
    under the cursor for the multi ones. *)
Definition deref (t : SimpleHashTable) (it : Iterator) : option KeyValueType :=
  if MULTI then
    l ← nthZ (arr t) (index it); pos ← listIterator it; l !! pos
  else l ← nthZ (arr t) (index it); head l.

(** [n] applications of [operator++]. *)
Fixpoint advance (t : SimpleHashTable) (n : nat) (it : Iterator) : option Iterator :=
  match n with
  | O => Some it
  | S n' => it' ← increment t it; advance t n' it'
  end.

Lemma advance_single t n : forall it,
  MULTI = false ->
  0 <= index it -> index it + Z.of_nat n < 2 ^ 64 ->
  advance t n it =
    Some (match n with
          | O => it
          | S _ => mkIt (all it) (index it + Z.of_nat n) (listIterator it)
                        (itRehashCounter it) NO_BUCKET
          end).
Proof.
  induction n as [|n IH]; intros it HM H0 Hn; [done|].
  change (2 ^ 64) with 18446744073709551616 in *.
  cbn [advance]. unfold increment. rewrite HM. simpl.
  rewrite IH; [|done|cbn [index]..].
  - assert (wrap64 (index it + 1) = index it + 1) as ->.
    { unfold wrap64. change (2 ^ 64) with 18446744073709551616.
      apply Z.mod_small. lia. }
    destruct n; cbn [all index listIterator itRehashCounter]; do 2 f_equal; lia.
  - unfold wrap64. apply Z.mod_pos_bound. done.
  - assert (wrap64 (index it + 1) = index it + 1) as ->.
    { unfold wrap64. change (2 ^ 64) with 18446744073709551616.
      apply Z.mod_small. lia. }
    lia.
Qed.

(** A loop from [begin()] to [end()] over a single-variant table visits
    the entries of [arr] in order, each once: after [n] increments the
    iterator stands at index [n], it compares equal to [end()] exactly when
    [n] is [arr.size()], and before that it dereferences to [arr[n]]. *)
Theorem single_traversal (t : SimpleHashTable) (n : nat) :
  MULTI = false -> (n <= length (arr t))%nat -> sizeZ (arr t) < 2 ^ 64 ->
  exists b e itn,
    begin_ t = Some b /\ end_ t = Some e /\ advance t n b = Some itn /\
    index itn = Z.of_nat n /\
    (it_eqb itn e = true <-> n = length (arr t)) /\
    ((n < length (arr t))%nat -> deref t itn = arr t !! n ≫= head).
Proof.
  intros HM Hn Hsz.
  pose proof (newIterator_single t 0 true HM) as Hb.
  pose proof (newIterator_single t (sizeZ (arr t)) true HM) as He.
  eexists _, _, _. split; [exact Hb|]. split; [exact He|].
  assert (0 + Z.of_nat n < 2 ^ 64) as Hlt.
  { unfold sizeZ in Hsz. change (2 ^ 64) with 18446744073709551616 in *. lia. }
  split; [apply advance_single; [done|done|exact Hlt]|].
  assert (index (match n with
                 | O => mkIt true 0 None (rehashCounter t) NO_BUCKET
                 | S _ => mkIt true (0 + Z.of_nat n) None (rehashCounter t) NO_BUCKET
                 end) = Z.of_nat n) as Hidx by (destruct n; cbn [index]; lia).
  cbn [all index listIterator itRehashCounter] in *.
  split; [exact Hidx|]. split.
  - unfold it_eqb. rewrite HM, Hidx. cbn [index]. unfold sizeZ.
    rewrite Z.eqb_eq. lia.
  - intros Hn'. unfold deref. rewrite HM, Hidx. unfold nthZ.
    by rewrite Nat2Z.id.
Qed.

End Iteration.

Section IterationExamples.
#[local] Existing Instance u64_single.

Lemma single_traversal_witness :
  let t := after [ins1 1 "a"; ins1 2 "b"; ins1 3 "c"] in
  exists b e itn,
    begin_ t = Some b /\ end_ t = Some e /\ advance t 2 b = Some itn /\
    index itn = Z.of_nat 2 /\
    (it_eqb itn e = true <-> 2%nat = length (arr t)) /\
    ((2 < length (arr t))%nat -> deref t itn = arr t !! 2%nat ≫= head).
Proof.
  intros t. apply (single_traversal t 2).
  - reflexivity.
  - vm_decide.
  - vm_decide.
Defined.

End IterationExamples.
